(** * news-bot: the polling pipeline of [news_bot.py]

    A shallow embedding of [NewsBot] (fetch, filter, extract, format,
    deliver, persist) and the properties of its specification.

    Python values are modelled as follows.
    - [str] is a list of Unicode code points ([N]); [len] counts them.
    - [int] is [Z].
    - An exception derived from [Exception] is the outcome [Raise]; the
      handlers of the program ([except Exception]) do not tell them apart.
    - The network and the file system are explicit: the sent-articles file
      is a field of the [world], the sites and the Telegram API are oracle
      functions of the history of the run. *)

From Stdlib Require Import ZArith String Ascii.
From stdpp Require Import gmap list.

Open Scope Z_scope.

(** ** Strings *)

Abbreviation pystr := (list N).

(** The code points of an ASCII literal. *)
Definition ascii_text (s : string) : pystr :=
  map N_of_ascii (list_ascii_of_string s).

Definition LF : N := 10%N.
Definition CR : N := 13%N.
Definition SLASH : N := 47%N.
Definition LBRACE : N := 123%N.
Definition RBRACE : N := 125%N.

(** [len(s)] *)
Definition len (s : pystr) : Z := Z.of_nat (length s).

(** [str.isspace] on one code point: the code points for which CPython's
    [_PyUnicode_IsWhitespace] answers true. *)
Definition isspace (c : N) : bool :=
  ((9 <=? c) && (c <=? 13) || (28 <=? c) && (c <=? 32)
   || (c =? 133) || (c =? 160) || (c =? 5760)
   || (8192 <=? c) && (c <=? 8202)
   || (c =? 8232) || (c =? 8233) || (c =? 8239) || (c =? 8287)
   || (c =? 12288))%N.

(** [s.lstrip()], [s.rstrip()], [s.strip()] without argument. *)
Fixpoint lstrip (s : pystr) : pystr :=
  match s with
  | c :: s' => if isspace c then lstrip s' else s
  | [] => []
  end.

Definition rstrip (s : pystr) : pystr := reverse (lstrip (reverse s)).

Definition strip (s : pystr) : pystr := rstrip (lstrip s).

(** [s.lstrip(c)] for a one-character argument. *)
Fixpoint lstrip_char (c : N) (s : pystr) : pystr :=
  match s with
  | d :: s' => if (d =? c)%N then lstrip_char c s' else s
  | [] => []
  end.

(** [s.startswith(p)] *)
Fixpoint startswith (s p : pystr) {struct p} : bool :=
  match p, s with
  | [], _ => true
  | d :: p', c :: s' => (c =? d)%N && startswith s' p'
  | _ :: _, [] => false
  end.

(** [sep.join(xs)] *)
Fixpoint join (sep : pystr) (xs : list pystr) : pystr :=
  match xs with
  | [] => []
  | [x] => x
  | x :: xs' => x ++ sep ++ join sep xs'
  end.

(** ** Outcomes of a call *)

(** [Unmodelled] marks the calls whose result depends on parts of
    [str.format] that are not embedded here (see [str_format]). *)
Inductive outcome (A : Type) : Type :=
| Ok (a : A)
| Raise
| Unmodelled.
Arguments Ok {A} a.
Arguments Raise {A}.
Arguments Unmodelled {A}.

Definition bind_outcome {A B} (x : outcome A) (f : A -> outcome B) : outcome B :=
  match x with
  | Ok a => f a
  | Raise => Raise
  | Unmodelled => Unmodelled
  end.

Definition map_outcome {A B} (f : A -> B) (x : outcome A) : outcome B :=
  bind_outcome x (fun a => Ok (f a)).

(** A list comprehension whose element expression may raise: elements are
    evaluated left to right and the first exception ends the evaluation. *)
Fixpoint comprehension {A B} (f : A -> outcome B) (xs : list A)
  : outcome (list B) :=
  match xs with
  | [] => Ok []
  | x :: xs' =>
      bind_outcome (f x) (fun y => map_outcome (cons y) (comprehension f xs'))
  end.

(** ** [range] and slicing *)

(** [range(start, stop, step)]: a zero step raises [ValueError]; otherwise
    the length is the one CPython computes. *)
Definition range_length (start stop step : Z) : Z :=
  if 0 <? step then
    if start <? stop then (stop - start - 1) / step + 1 else 0
  else
    if stop <? start then (start - stop - 1) / (- step) + 1 else 0.

Definition py_range (start stop step : Z) : outcome (list Z) :=
  if step =? 0 then Raise
  else Ok (map (fun k => start + Z.of_nat k * step)
               (seq 0 (Z.to_nat (range_length start stop step)))).

(** An index of a slice, brought into [0..len] as Python does. *)
Definition clamp_index (n i : Z) : Z :=
  if i <? 0 then Z.max 0 (i + n) else Z.min i n.

(** [s[i:j]] *)
Definition py_slice (s : pystr) (i j : Z) : pystr :=
  let lo := clamp_index (len s) i in
  let hi := clamp_index (len s) j in
  take (Z.to_nat (hi - lo)) (drop (Z.to_nat lo) s).

(** ** [str.format] with the one keyword argument [content]

    The template is scanned as CPython's [MarkupIterator] does: a doubled
    brace is a literal brace, a single closing brace is an error, an opening
    brace starts a replacement field that runs to its closing brace.
    - The field [{content}] is replaced by the argument.
    - A field whose name (up to [.], [[], [!] or [:]) is not [content] names
      no argument: the call raises, whatever follows.
    - The field [content] followed by an attribute, an index, a conversion
      or a format specification is [Unmodelled]. *)

Definition CONTENT : pystr := ascii_text "content".

Inductive scan_state : Type :=
| InText
| AfterOpen
| InField (name : pystr)
| AfterClose.

Definition ends_field_name (c : N) : bool :=
  ((c =? 46) || (c =? 91) || (c =? 33) || (c =? 58))%N.

Definition pystr_eqb (a b : pystr) : bool := bool_decide (a = b).

Fixpoint scan_format (st : scan_state) (tpl arg : pystr) : outcome pystr :=
  match tpl with
  | [] => match st with InText => Ok [] | _ => Raise end
  | c :: rest =>
      let field (name : pystr) : outcome pystr :=
        if (c =? RBRACE)%N then
          if pystr_eqb name CONTENT
          then map_outcome (app arg) (scan_format InText rest arg)
          else Raise
        else if (c =? LBRACE)%N then Raise
        else if ends_field_name c then
          if pystr_eqb name CONTENT then Unmodelled else Raise
        else scan_format (InField (name ++ [c])) rest arg in
      match st with
      | InText =>
          if (c =? LBRACE)%N then scan_format AfterOpen rest arg
          else if (c =? RBRACE)%N then scan_format AfterClose rest arg
          else map_outcome (cons c) (scan_format InText rest arg)
      | AfterOpen =>
          if (c =? LBRACE)%N
          then map_outcome (cons LBRACE) (scan_format InText rest arg)
          else field []
      | InField name => field name
      | AfterClose =>
          if (c =? RBRACE)%N
          then map_outcome (cons RBRACE) (scan_format InText rest arg)
          else Raise
      end
  end.

(** [template.format(content=arg)] *)
Definition str_format (template arg : pystr) : outcome pystr :=
  scan_format InText template arg.

(** ** Configuration *)

Definition RBC_URL : pystr := ascii_text "https://www.rbc.ru/".
Definition MAX_MESSAGE_LENGTH : Z := 4096.

(** ** [NewsBot.format_message] *)

Definition PLACEHOLDER : pystr := ascii_text "{content}".

(** The two f-strings around the placeholder. *)
Definition header (title : pystr) : pystr :=
  ascii_text "<b>" ++ [128240%N] ++ ascii_text " " ++ title
  ++ ascii_text "</b>" ++ [LF; LF].

Definition footer (link : pystr) : pystr :=
  [LF; LF] ++ ascii_text "<a href='" ++ link ++ ascii_text "'>"
  ++ [128279%N] ++ ascii_text " "
  ++ [1048; 1089; 1090; 1086; 1095; 1085; 1080; 1082]%N
  ++ ascii_text "</a>".

Definition message_template (title link : pystr) : pystr :=
  header title ++ PLACEHOLDER ++ footer link.

Definition max_content_length (title link : pystr) : Z :=
  MAX_MESSAGE_LENGTH - len (message_template title link) + len PLACEHOLDER.

Definition format_message (title content link : pystr)
  : outcome (list pystr) :=
  let m := max_content_length title link in
  bind_outcome (py_range 0 (len content) m) (fun starts =>
  let parts := map (fun i => py_slice content i (i + m)) starts in
  comprehension (str_format (message_template title link)) parts).

(** ** The sent-articles file

    [sent_file] is the text of [sent_articles.txt] as Python's text mode
    shows it, or [None] while the file does not exist. *)

(** [f.readlines()] under universal newlines: a line ends after [\n],
    [\r\n] or [\r], each read as [\n]; a last line may lack its end. *)
Fixpoint readlines (text : pystr) : list pystr :=
  match text with
  | [] => []
  | c :: rest =>
      if (c =? LF)%N then [LF] :: readlines rest
      else if (c =? CR)%N then
        match rest with
        | d :: rest' =>
            if (d =? LF)%N then [LF] :: readlines rest'
            else [LF] :: readlines rest
        | [] => [[LF]]
        end
      else
        match readlines rest with
        | [] => [[c]]
        | line :: lines => (c :: line) :: lines
        end
  end.

Definition load_sent_articles (sent_file : option pystr) : gset pystr :=
  match sent_file with
  | Some text => list_to_set (map strip (readlines text))
  | None => ∅
  end.

Definition save_sent_article (link : pystr) (sent_file : option pystr)
  : option pystr :=
  Some (default [] sent_file ++ link ++ [LF]).

(** ** The outside world *)

(** What the program does to the outside, in order. *)
Inductive event : Type :=
| EvFetch
| EvExtract (url : pystr)
| EvSend (text : pystr) (ok : bool)
| EvSave (link : pystr)
| EvSleep (seconds : Z).

(** An element of [soup.find_all('a', class_='main__feed__link')]. *)
Record anchor : Type := { a_text : pystr; a_href : option pystr }.

(** The home page request: an exception, or a response with its status and
    the anchors that [find_all] selects in its body. *)
Inductive home_response : Type :=
| HomeRaised
| HomeResponse (status_code : Z) (anchors : list anchor).

(** An article request: an exception raised by the request or by the
    parser, or a response with its status and, when one of the two [find]
    calls succeeds, the stripped texts of the [p], [h2] and [h3] elements
    of the cleaned container. *)
Inductive page_response : Type :=
| PageRaised
| PageResponse (status_code : Z) (blocks : option (list pystr)).

(** The sites and the Telegram API answer as a function of what happened so
    far. [telegram] gives the status of the POST, [None] when it raises.
    [os_refuses] tells whether the operating system refuses to wait for a
    length that Python accepts (the deadline is beyond the range of its
    clock). [read_error] tells whether reading the sent-articles file
    raises something else than [FileNotFoundError] (no permission, bytes
    that are not UTF-8). *)
Record env : Type := {
  home_page : list event -> home_response;
  article_page : list event -> pystr -> page_response;
  telegram : list event -> pystr -> option Z;
  CHECK_INTERVAL : Z;
  os_refuses : list event -> Z -> bool;
  read_error : list event -> bool
}.

Record world : Type := { sent_file : option pystr; history : list event }.

(** ** [NewsBot.fetch_articles] *)

Record article : Type := { title : pystr; link : pystr }.

Definition HTTP : pystr := ascii_text "http".

Definition resolve_link (href : pystr) : pystr :=
  if startswith href HTTP then href
  else RBC_URL ++ lstrip_char SLASH href.

(** [response.raise_for_status()] raises on 4xx and 5xx. *)
Definition raises_for_status (status_code : Z) : bool :=
  (400 <=? status_code) && (status_code <? 600).

(** The loop body; [item['href']] raises [KeyError] without the attribute. *)
Definition article_of_anchor (item : anchor) : outcome article :=
  match a_href item with
  | Some href => Ok {| title := strip (a_text item); link := resolve_link href |}
  | None => Raise
  end.

Definition fetch_articles (r : home_response) : list article :=
  match r with
  | HomeRaised => []
  | HomeResponse status_code anchors =>
      if raises_for_status status_code then []
      else match comprehension article_of_anchor anchors with
           | Ok articles => articles
           | _ => []
           end
  end.

(** ** [NewsBot.parse_article_content] *)

(** "Текст статьи не найден" *)
Definition NOT_FOUND : pystr :=
  [1058; 1077; 1082; 1089; 1090; 32; 1089; 1090; 1072; 1090; 1100; 1080;
   32; 1085; 1077; 32; 1085; 1072; 1081; 1076; 1077; 1085]%N.

Definition nonempty (s : pystr) : bool :=
  match s with [] => false | _ :: _ => true end.

Definition parse_article_content (r : page_response) : pystr :=
  match r with
  | PageRaised => []
  | PageResponse _ None => NOT_FOUND
  | PageResponse _ (Some blocks) =>
      join [LF; LF] (filter (fun s => nonempty s = true) blocks)
  end.

(** ** The program as a state transformer *)

Definition M (A : Type) : Type := world -> world * outcome A.

Definition ret {A} (a : A) : M A := fun w => (w, Ok a).

Definition bind {A B} (m : M A) (k : A -> M B) : M B :=
  fun w =>
    match m w with
    | (w', Ok a) => k a w'
    | (w', Raise) => (w', Raise)
    | (w', Unmodelled) => (w', Unmodelled)
    end.

Declare Scope bot_scope.
Delimit Scope bot_scope with bot.
Notation "x <- m ;; k" := (bind m (fun x => k))
  (at level 100, m at next level, right associativity) : bot_scope.
Notation "m ;; k" := (bind m (fun _ => k))
  (at level 100, right associativity) : bot_scope.
Open Scope bot_scope.

Definition lift {A} (x : outcome A) : M A := fun w => (w, x).

Definition record_event (ev : event) : M unit :=
  fun w => ({| sent_file := sent_file w; history := history w ++ [ev] |}, Ok tt).

(** [time.sleep(seconds)] for an [int]: a negative length raises
    [ValueError]; a length above 9223372036 s does not fit the signed 64-bit
    count of nanoseconds and raises [OverflowError]; a length in between is
    handed to the operating system, which raises [OSError] when it refuses
    the deadline. No clock refuses the pauses of one and two seconds of the
    program. *)
Definition SLEEP_MAX : Z := 9223372036.

Definition sleep_raises (e : env) (h : list event) (seconds : Z) : bool :=
  (seconds <? 0) || (SLEEP_MAX <? seconds)
  || ((2 <? seconds) && os_refuses e h seconds).

Definition sleep (e : env) (seconds : Z) : M unit :=
  fun w =>
    if sleep_raises e (history w) seconds then (w, Raise)
    else record_event (EvSleep seconds) w.

(** [self.load_sent_articles()]: only [FileNotFoundError] is caught, any
    other exception of the read leaves the function. *)
Definition load (e : env) : M (gset pystr) :=
  fun w =>
    if read_error e (history w) then (w, Raise)
    else (w, Ok (load_sent_articles (sent_file w))).

Definition save (l : pystr) : M unit :=
  fun w => ({| sent_file := save_sent_article l (sent_file w);
               history := history w ++ [EvSave l] |}, Ok tt).

Definition fetch (e : env) : M (list article) :=
  fun w => ({| sent_file := sent_file w; history := history w ++ [EvFetch] |},
            Ok (fetch_articles (home_page e (history w)))).

Definition extract (e : env) (url : pystr) : M pystr :=
  fun w => ({| sent_file := sent_file w; history := history w ++ [EvExtract url] |},
            Ok (parse_article_content (article_page e (history w) url))).

(** [NewsBot.send_telegram_message]: true on status 200, false on any other
    status and on an exception. *)
Definition delivered (answer : option Z) : bool :=
  match answer with
  | Some status_code => status_code =? 200
  | None => false
  end.

Definition send_telegram_message (e : env) (text : pystr) : M bool :=
  fun w =>
    let ok := delivered (telegram e (history w) text) in
    ({| sent_file := sent_file w; history := history w ++ [EvSend text ok] |}, Ok ok).

(** ** [NewsBot.run] *)

(** The inner [for message in ...] loop. *)
Fixpoint deliver (e : env) (messages : list pystr) : M unit :=
  match messages with
  | [] => ret tt
  | message :: messages' =>
      ok <- send_telegram_message e message ;;
      (if ok : bool then sleep e 1 else ret tt) ;;
      deliver e messages'
  end.

(** The body of [for article in new_articles]. *)
Definition process_article (e : env) (a : article) : M unit :=
  content <- extract e (link a) ;;
  if nonempty content then
    messages <- lift (format_message (title a) content (link a)) ;;
    deliver e messages ;;
    save (link a) ;;
    sleep e 2
  else ret tt.

Fixpoint for_each {A} (body : A -> M unit) (xs : list A) : M unit :=
  match xs with
  | [] => ret tt
  | x :: xs' => body x ;; for_each body xs'
  end.

Definition new_articles (sent_articles : gset pystr) (articles : list article)
  : list article :=
  filter (fun a => link a ∉ sent_articles) articles.

(** One pass of the [while True] body. *)
Definition cycle (e : env) : M unit :=
  sent_articles <- load e ;;
  articles <- fetch e ;;
  for_each (process_article e) (new_articles sent_articles articles) ;;
  sleep e (CHECK_INTERVAL e).

(** [n] passes of the loop; an exception ends the loop (the handler of
    [run] logs it and returns). *)
Fixpoint run (e : env) (n : nat) : M unit :=
  match n with
  | O => ret tt
  | S n' => cycle e ;; run e n'
  end.

(** Observations on a history. *)
Definition extracted (evs : list event) : list pystr :=
  omap (fun ev => match ev with EvExtract u => Some u | _ => None end) evs.

Definition sent (evs : list event) : list pystr :=
  omap (fun ev => match ev with EvSend t _ => Some t | _ => None end) evs.

Definition saved (evs : list event) : list pystr :=
  omap (fun ev => match ev with EvSave l => Some l | _ => None end) evs.

(** ** Notions used in the statements *)

(** No brace in the string: [str.format] reads it as literal text. *)
Definition brace_free (s : pystr) : bool :=
  forallb (fun c => negb ((c =? LBRACE) || (c =? RBRACE))%N) s.

(** The template without its placeholder. *)
Definition decoration (t l : pystr) : pystr := header t ++ footer l.

(** The number of slices of [n] characters cut [m] at a time. *)
Definition slice_count (n m : Z) : nat := Z.to_nat (range_length 0 n m).

(** The slices that [format_message] cuts when the capacity is positive. *)
Definition slices (m : Z) (content : pystr) : list pystr :=
  map (fun k => take (Z.to_nat m) (drop (k * Z.to_nat m) content))
      (seq 0 (slice_count (len content) m)).

(** A rendered message without its header and its footer. *)
Definition strip_decoration (t l msg : pystr) : pystr :=
  take (length msg - length (header t) - length (footer l))
       (drop (length (header t)) msg).

(** The world after the events [evs], the file untouched. *)
Definition after (w : world) (evs : list event) : world :=
  {| sent_file := sent_file w; history := history w ++ evs |}.

(** The world after the events [evs], the link [l] appended to the file. *)
Definition marked_sent (l : pystr) (w : world) (evs : list event) : world :=
  {| sent_file := save_sent_article l (sent_file w);
     history := history w ++ evs |}.


(** The file is absent, empty, or ends with a line feed: the state of every
    file that only [save_sent_article] has written. *)
Definition terminated (f : option pystr) : bool :=
  match f with
  | None => true
  | Some text =>
      match last text with
      | None => true
      | Some c => (c =? LF)%N
      end
  end.

(** A link that [strip] leaves unchanged and that has no line break. *)
Definition plain_link (l : pystr) : Prop :=
  strip l = l /\ (LF ∉ l) /\ (CR ∉ l).

(** A step extends the history by [evs]; a terminated file stays terminated
    and loses no member of the loaded set. *)
Definition advances (w w' : world) (evs : list event) : Prop :=
  history w' = history w ++ evs
  /\ (terminated (sent_file w) = true ->
      terminated (sent_file w') = true
      /\ load_sent_articles (sent_file w) ⊆ load_sent_articles (sent_file w')).

(** The text that saving the links [ls] in order appends to the file. *)
Definition written_lines (ls : list pystr) : pystr :=
  concat (map (fun l => l ++ [LF]) ls).

(** The events of one delivery attempt: the request and, after a success,
    the pause of one second. *)
Definition attempt (text : pystr) (ok : bool) : list event :=
  EvSend text ok :: if ok then [EvSleep 1] else [].

(** Every save in [evs] comes after a request for the page of the same
    link. *)
Definition saved_after_extracted (evs : list event) : Prop :=
  forall (i : nat) (l : pystr),
    evs !! i = Some (EvSave l) ->
    exists j : nat, (j < i)%nat /\ evs !! j = Some (EvExtract l).

(** A step extends the history by [evs]; the file is the file before
    followed by one line for each link saved, and every link saved was
    passed to the extractor earlier in that step. *)
Definition records (w w' : world) (evs : list event) : Prop :=
  history w' = history w ++ evs
  /\ sent_file w'
     = match saved evs with
       | [] => sent_file w
       | _ :: _ => Some (default [] (sent_file w) ++ written_lines (saved evs))
       end
  /\ saved_after_extracted evs.

(** ** Sample data *)

Definition sample_link : pystr := ascii_text "https://www.rbc.ru/economy/news1".

Definition sample_article : article :=
  {| title := ascii_text "Title"; link := sample_link |}.

(** A world in which every article request is answered by [page] and every
    POST to Telegram by [answer]; the home page lists [hrefs]. *)
Definition sample_env (hrefs : list pystr) (page : page_response)
           (answer : option Z) : env :=
  {| home_page := fun _ =>
       HomeResponse 200
         (map (fun h => {| a_text := ascii_text "Title"; a_href := Some h |}) hrefs);
     article_page := fun _ _ => page;
     telegram := fun _ _ => answer;
     CHECK_INTERVAL := 900;
     os_refuses := fun _ _ => false;
     read_error := fun _ => false |}.

(** The first start of the bot: no file, nothing done yet. *)
Definition first_start : world := {| sent_file := None; history := [] |}.

(** * Properties *)

(** ** Outcomes *)

Lemma Ok_inj {A} (a b : A) : Ok a = Ok b -> a = b.
Proof. congruence. Qed.

Lemma map_outcome_Ok {A B} (f : A -> B) (x : outcome A) (a : A) :
  x = Ok a -> map_outcome f x = Ok (f a).
Proof. intros ->. reflexivity. Qed.

Lemma comprehension_Ok {A B} (f : A -> outcome B) (g : A -> B) (xs : list A) :
  (forall x, x ∈ xs -> f x = Ok (g x)) ->
  comprehension f xs = Ok (map g xs).
Proof.
  induction xs as [|x xs IH]; intros Hf; [reflexivity|].
  cbn [comprehension map].
  rewrite (Hf x) by apply list_elem_of_here. cbn [bind_outcome].
  rewrite IH; [reflexivity|].
  intros y Hy. apply Hf. by apply list_elem_of_further.
Qed.

(** ** [str.format] on a template without stray braces *)

Lemma scan_text_step (c : N) (rest arg : pystr) :
  (c =? LBRACE)%N = false -> (c =? RBRACE)%N = false ->
  scan_format InText (c :: rest) arg
  = map_outcome (cons c) (scan_format InText rest arg).
Proof. intros H1 H2. cbn [scan_format]. by rewrite H1, H2. Qed.

Lemma map_outcome_compose {A B C} (f : B -> C) (g : A -> B) (x : outcome A) :
  map_outcome f (map_outcome g x) = map_outcome (fun a => f (g a)) x.
Proof. by destruct x. Qed.

Lemma scan_format_text (s rest arg : pystr) :
  brace_free s = true ->
  scan_format InText (s ++ rest) arg
  = map_outcome (app s) (scan_format InText rest arg).
Proof.
  induction s as [|c s IH]; cbn [brace_free forallb app]; intros Hs.
  - by destruct (scan_format InText rest arg).
  - apply andb_true_iff in Hs as [Hc Hs].
    apply negb_true_iff, orb_false_iff in Hc as [H1 H2].
    rewrite scan_text_step by done. rewrite IH by done.
    by rewrite map_outcome_compose.
Qed.

Lemma scan_format_placeholder (rest arg : pystr) :
  scan_format InText (PLACEHOLDER ++ rest) arg
  = map_outcome (app arg) (scan_format InText rest arg).
Proof. reflexivity. Qed.

Lemma brace_free_app (s t : pystr) :
  brace_free (s ++ t) = brace_free s && brace_free t.
Proof. apply forallb_app. Qed.

Lemma brace_free_header (title : pystr) :
  brace_free title = true -> brace_free (header title) = true.
Proof.
  intros H. unfold header. rewrite !brace_free_app, H. reflexivity.
Qed.

Lemma brace_free_footer (l : pystr) :
  brace_free l = true -> brace_free (footer l) = true.
Proof.
  intros H. unfold footer. rewrite !brace_free_app, H. reflexivity.
Qed.

(** With a title and a link free of braces, the template renders as the
    header, the argument and the footer. *)
Lemma str_format_template (t l part : pystr) :
  brace_free t = true -> brace_free l = true ->
  str_format (message_template t l) part = Ok (header t ++ part ++ footer l).
Proof.
  intros Ht Hl. unfold str_format, message_template.
  rewrite scan_format_text by by apply brace_free_header.
  rewrite scan_format_placeholder.
  rewrite <- (app_nil_r (footer l)) at 1.
  rewrite scan_format_text by by apply brace_free_footer.
  cbn. by rewrite app_nil_r.
Qed.

(** ** [range] and slices *)

Lemma len_nonneg (s : pystr) : 0 <= len s.
Proof. unfold len. lia. Qed.

Lemma len_app (s t : pystr) : len (s ++ t) = len s + len t.
Proof. unfold len. rewrite length_app. lia. Qed.

Lemma py_range_zero_step (start stop : Z) : py_range start stop 0 = Raise.
Proof. reflexivity. Qed.

Lemma py_range_negative_step (stop step : Z) :
  0 <= stop -> step < 0 -> py_range 0 stop step = Ok [].
Proof.
  intros Hstop Hstep. unfold py_range, range_length.
  destruct (Z.eqb_spec step 0); [lia|].
  destruct (Z.ltb_spec 0 step); [lia|].
  destruct (Z.ltb_spec stop 0); [lia|]. reflexivity.
Qed.

Lemma py_range_positive_step (stop step : Z) :
  0 < step ->
  py_range 0 stop step
  = Ok (map (fun k => Z.of_nat k * step) (seq 0 (slice_count stop step))).
Proof.
  intros Hstep. unfold py_range.
  destruct (Z.eqb_spec step 0); [lia|]. reflexivity.
Qed.

Lemma slice_count_covers (n m : Z) :
  0 <= n -> 0 < m -> n <= Z.of_nat (slice_count n m) * m.
Proof.
  intros Hn Hm. unfold slice_count, range_length.
  destruct (Z.ltb_spec 0 m); [|lia].
  destruct (Z.ltb_spec 0 n); [|lia].
  assert (0 <= (n - 0 - 1) / m) by (apply Z.div_pos; lia).
  rewrite Z2Nat.id by lia.
  pose proof (Z.mul_succ_div_gt (n - 0 - 1) m Hm). lia.
Qed.

Lemma py_slice_window (s : pystr) (i m : Z) :
  0 <= i -> 0 < m ->
  py_slice s i (i + m) = take (Z.to_nat m) (drop (Z.to_nat i) s).
Proof.
  intros Hi Hm. unfold py_slice, clamp_index, len.
  destruct (Z.ltb_spec i 0); [lia|].
  destruct (Z.ltb_spec (i + m) 0); [lia|].
  destruct (Z_le_gt_dec (Z.of_nat (length s)) i) as [Hge|Hlt].
  - rewrite !drop_ge by lia. by rewrite !take_nil.
  - rewrite (Z.min_l i) by lia.
    destruct (Z_le_gt_dec (i + m) (Z.of_nat (length s))) as [Hin|Hout].
    + rewrite Z.min_l by lia. f_equal. lia.
    + rewrite Z.min_r by lia.
      rewrite !take_ge; [done| |]; rewrite length_drop; lia.
Qed.

Lemma take_plus {A} (a b : nat) (l : list A) :
  take (a + b) l = take a l ++ take b (drop a l).
Proof.
  revert l. induction a as [|a IH]; intros [|x l]; cbn; try done.
  - by rewrite take_nil.
  - by rewrite IH.
Qed.

Lemma concat_windows (m : nat) (s : pystr) (count first : nat) :
  concat (map (fun k => take m (drop (k * m) s)) (seq first count))
  = take (count * m) (drop (first * m) s).
Proof.
  revert first. induction count as [|count IH]; intros first; [done|].
  cbn [seq map concat]. rewrite IH.
  replace (S count * m)%nat with (m + count * m)%nat by lia.
  rewrite take_plus, drop_drop. do 3 f_equal. lia.
Qed.

(** ** The shape of [format_message] *)

Lemma max_content_length_decoration (t l : pystr) :
  max_content_length t l = MAX_MESSAGE_LENGTH - len (decoration t l).
Proof.
  unfold max_content_length, message_template, decoration.
  rewrite !len_app. lia.
Qed.

Lemma parts_slices (m : Z) (content : pystr) :
  0 < m ->
  map (fun i => py_slice content i (i + m))
      (map (fun k => Z.of_nat k * m) (seq 0 (slice_count (len content) m)))
  = slices m content.
Proof.
  intros Hm. unfold slices. rewrite map_map. apply map_ext. intros k.
  rewrite py_slice_window by lia. do 2 f_equal. lia.
Qed.

Lemma concat_slices (m : Z) (content : pystr) :
  0 < m -> concat (slices m content) = content.
Proof.
  intros Hm. unfold slices. rewrite concat_windows. cbn [Nat.mul drop].
  apply take_ge.
  pose proof (slice_count_covers (len content) m (len_nonneg _) Hm).
  unfold len in *. nia.
Qed.

Lemma slices_bounded (m : Z) (content part : pystr) :
  0 < m -> part ∈ slices m content -> len part <= m.
Proof.
  intros Hm Hin. unfold slices in Hin.
  apply list_elem_of_fmap in Hin as (k & -> & _).
  unfold len. rewrite length_take. lia.
Qed.

Lemma format_message_positive (t content l : pystr) :
  brace_free t = true -> brace_free l = true ->
  0 < max_content_length t l ->
  format_message t content l
  = Ok (map (fun part => header t ++ part ++ footer l)
            (slices (max_content_length t l) content)).
Proof.
  intros Ht Hl Hm. unfold format_message.
  rewrite py_range_positive_step by done. cbn [bind_outcome].
  rewrite parts_slices by done.
  apply comprehension_Ok. intros part _. by apply str_format_template.
Qed.

Lemma format_message_zero (t content l : pystr) :
  max_content_length t l = 0 -> format_message t content l = Raise.
Proof. intros Hm. unfold format_message. by rewrite Hm. Qed.

Lemma format_message_negative (t content l : pystr) :
  max_content_length t l < 0 -> format_message t content l = Ok [].
Proof.
  intros Hm. unfold format_message.
  by rewrite py_range_negative_step by (apply len_nonneg || done).
Qed.

(** ** The length of the rendered messages *)

(** With a title and a link free of braces every message fits the limit. *)
Lemma format_message_within_limit (t content l : pystr) (msgs : list pystr) :
  brace_free t = true -> brace_free l = true ->
  format_message t content l = Ok msgs ->
  forall msg, msg ∈ msgs -> len msg <= MAX_MESSAGE_LENGTH.
Proof.
  intros Ht Hl Hfmt msg Hmsg.
  destruct (Z.lt_trichotomy (max_content_length t l) 0) as [Hm|[Hm|Hm]].
  - rewrite format_message_negative in Hfmt by done.
    apply Ok_inj in Hfmt. subst msgs. by apply elem_of_nil in Hmsg.
  - by rewrite format_message_zero in Hfmt.
  - rewrite format_message_positive in Hfmt by done.
    apply Ok_inj in Hfmt. subst msgs.
    apply list_elem_of_fmap in Hmsg as (part & -> & Hpart).
    apply slices_bounded in Hpart; [|done].
    rewrite max_content_length_decoration in Hpart.
    unfold decoration in Hpart. rewrite !len_app in *. lia.
Qed.

(** C3. A title that is itself the text [{content}] is a second replacement
    field of the template: the slice is rendered twice and the only message
    returned is longer than the limit of 4096 code points. *)
Theorem format_message_placeholder_title_exceeds_limit :
  exists msg,
    format_message PLACEHOLDER (repeat 97%N (Z.to_nat 4000))
                   (ascii_text "https://www.rbc.ru/economy/news1")
    = Ok [msg]
    /\ len msg = 8070
    /\ MAX_MESSAGE_LENGTH < len msg.
Proof.
  eexists. split; [vm_compute; reflexivity|].
  split; vm_compute; reflexivity.
Qed.

(** ** Slices and the content *)

Lemma strip_decoration_render (t l part : pystr) :
  strip_decoration t l (header t ++ part ++ footer l) = part.
Proof.
  unfold strip_decoration. rewrite drop_app_length.
  rewrite !length_app.
  replace (length (header t) + (length part + length (footer l))
           - length (header t) - length (footer l))%nat
    with (length part) by lia.
  by rewrite take_app_length.
Qed.

Lemma slice_count_long_content (m : Z) :
  0 < m -> m <= MAX_MESSAGE_LENGTH -> (1 < slice_count 10000 m)%nat.
Proof.
  unfold MAX_MESSAGE_LENGTH. intros Hpos Hmax. unfold slice_count, range_length.
  destruct (Z.ltb_spec 0 m); [|lia].
  change (0 <? 10000) with true. change (10000 - 0 - 1) with 9999. cbv iota.
  assert (1 <= 9999 / m) by (apply Z.div_le_lower_bound; lia). lia.
Qed.

(** C6 (as stated, refuted). A decoration longer than the limit leaves a
    negative capacity: for a content of 10000 characters no message is
    returned, so there is not more than one chunk and nothing to rebuild the
    content from. *)
Lemma format_message_long_title_drops_content :
  let t := repeat 97%N (Z.to_nat 4100) in
  let content := repeat 120%N (Z.to_nat 10000) in
  let l := ascii_text "https://www.rbc.ru/economy/news1" in
  exists msgs,
    format_message t content l = Ok msgs
    /\ ~ (1 < length msgs)%nat
    /\ concat (map (strip_decoration t l) msgs) <> content.
Proof.
  exists []. split; [by vm_compute|]. split; [cbn; lia|].
  intros H. vm_compute in H. discriminate H.
Qed.

(** C6 (amended). For a title and a link free of braces whose decoration is
    shorter than the limit, [format_message] returns its messages, the
    messages without their decoration concatenate to the content, and a
    content of 10000 characters gives more than one message. *)
Theorem format_message_slices_rebuild_content (t content l : pystr) :
  brace_free t = true -> brace_free l = true ->
  len (decoration t l) < MAX_MESSAGE_LENGTH ->
  exists msgs,
    format_message t content l = Ok msgs
    /\ concat (map (strip_decoration t l) msgs) = content
    /\ (len content = 10000 -> (1 < length msgs)%nat).
Proof.
  intros Ht Hl Hdec.
  assert (0 < max_content_length t l) as Hm
    by (rewrite max_content_length_decoration; lia).
  eexists. split; [by apply format_message_positive|]. split.
  - rewrite map_map.
    rewrite (map_ext _ id) by (intros; apply strip_decoration_render).
    rewrite map_id. by apply concat_slices.
  - intros Hlen. rewrite length_map. unfold slices.
    rewrite length_map, length_seq, Hlen.
    apply slice_count_long_content; [done|].
    rewrite max_content_length_decoration.
    pose proof (len_nonneg (decoration t l)). lia.
Qed.

Lemma format_message_slices_rebuild_content_witness :
  exists msgs,
    format_message (ascii_text "Title") (repeat 120%N (Z.to_nat 10000))
                   (ascii_text "https://www.rbc.ru/economy/news1")
    = Ok msgs
    /\ concat (map (strip_decoration (ascii_text "Title")
                      (ascii_text "https://www.rbc.ru/economy/news1")) msgs)
       = repeat 120%N (Z.to_nat 10000)
    /\ (len (repeat 120%N (Z.to_nat 10000)) = 10000 -> (1 < length msgs)%nat).
Proof.
  apply (format_message_slices_rebuild_content (ascii_text "Title")
           (repeat 120%N (Z.to_nat 10000))
           (ascii_text "https://www.rbc.ru/economy/news1"));
    reflexivity.
Defined.

(** ** Empty content *)

(** C7 (as stated, refuted). For an empty content [range(0, 0, m)] is empty
    and the list of messages is empty. *)
Lemma format_message_empty_content_no_message :
  format_message (ascii_text "Title") []
                 (ascii_text "https://www.rbc.ru/economy/news1")
  = Ok [].
Proof. reflexivity. Qed.

(** C7 (amended). For every title and link whose slice capacity is not zero,
    [format_message] called with the empty content returns the empty list:
    no message is produced for an empty content. *)
Theorem format_message_empty_content (t l : pystr) :
  max_content_length t l <> 0 -> format_message t [] l = Ok [].
Proof.
  intros Hm. unfold format_message, py_range, range_length.
  destruct (Z.eqb_spec (max_content_length t l) 0); [done|].
  change (len []) with 0. cbn [Z.ltb Z.compare].
  by destruct (0 <? max_content_length t l).
Qed.

Lemma format_message_empty_content_witness :
  max_content_length (ascii_text "Title")
                     (ascii_text "https://www.rbc.ru/economy/news1") <> 0
  /\ format_message (ascii_text "Title") []
                    (ascii_text "https://www.rbc.ru/economy/news1") = Ok [].
Proof.
  split; [by vm_compute|].
  apply (format_message_empty_content (ascii_text "Title")
           (ascii_text "https://www.rbc.ru/economy/news1")).
  by vm_compute.
Defined.

(** ** Steps of the poll loop *)

Lemma bind_Ok {A B} (m : M A) (k : A -> M B) (w w' : world) (a : A) :
  m w = (w', Ok a) -> bind m k w = k a w'.
Proof. unfold bind. by intros ->. Qed.

Lemma bind_Raise {A B} (m : M A) (k : A -> M B) (w w' : world) :
  m w = (w', Raise) -> bind m k w = (w', Raise).
Proof. unfold bind. by intros ->. Qed.

Lemma sent_app (xs ys : list event) : sent (xs ++ ys) = sent xs ++ sent ys.
Proof. apply omap_app. Qed.

Lemma saved_app (xs ys : list event) : saved (xs ++ ys) = saved xs ++ saved ys.
Proof. apply omap_app. Qed.

Lemma extracted_app (xs ys : list event) :
  extracted (xs ++ ys) = extracted xs ++ extracted ys.
Proof. apply omap_app. Qed.

Lemma extract_run (e : env) (url : pystr) (w : world) :
  extract e url w
  = (after w [EvExtract url],
     Ok (parse_article_content (article_page e (history w) url))).
Proof. reflexivity. Qed.

(** The first step of the loop body is the request for the page. *)
Ltac extract_step := erewrite bind_Ok by apply extract_run.

Section Steps.

Variable e : env.

(** The inner loop attempts every message in order, whatever the answers of
    the API, and touches neither the file nor the sites. *)
Lemma deliver_spec (msgs : list pystr) (w : world) :
  exists evs,
    deliver e msgs w = (after w evs, Ok tt)
    /\ sent evs = msgs /\ saved evs = [] /\ extracted evs = [].
Proof.
  revert w. induction msgs as [|msg msgs IH]; intros w.
  - exists []. unfold after. rewrite app_nil_r. by destruct w.
  - cbn [deliver].
    remember (delivered (telegram e (history w) msg)) as ok eqn:Hok.
    pose (pause := if ok then [EvSleep 1] else []).
    destruct (IH (after w (EvSend msg ok :: pause)))
      as (evs & Hrun & Hsent & Hsaved & Hextr).
    exists (EvSend msg ok :: pause ++ evs). split.
    + erewrite bind_Ok by reflexivity. rewrite <- Hok.
      assert ((if ok then sleep e 1 else ret tt) (after w [EvSend msg ok])
              = (after w (EvSend msg ok :: pause), Ok tt)) as Hpause.
      { subst pause. destruct ok; unfold sleep, record_event, ret, after; cbn.
        - by rewrite <- app_assoc.
        - done. }
      unfold after in *. cbn [sent_file history] in *.
      erewrite bind_Ok by exact Hpause. rewrite Hrun.
      by rewrite <- app_assoc.
    + subst pause. clear Hrun Hok.
      unfold sent, saved, extracted in *.
      destruct ok; cbn; by rewrite Hsent, Hsaved, Hextr.
Qed.

(** An article whose extracted content is empty: nothing but the request. *)
Lemma process_article_empty (a : article) (w : world) :
  parse_article_content (article_page e (history w) (link a)) = [] ->
  process_article e a w = (after w [EvExtract (link a)], Ok tt).
Proof.
  intros Hc. unfold process_article.
  extract_step. by rewrite Hc.
Qed.

(** An article with content whose messages are [msgs]. *)
Lemma process_article_messages (a : article) (w : world)
      (msgs : list pystr) :
  let content := parse_article_content (article_page e (history w) (link a)) in
  nonempty content = true ->
  format_message (title a) content (link a) = Ok msgs ->
  exists evs,
    process_article e a w
    = (marked_sent (link a) w
         ([EvExtract (link a)] ++ evs ++ [EvSave (link a); EvSleep 2]), Ok tt)
    /\ sent evs = msgs /\ saved evs = [] /\ extracted evs = [].
Proof.
  intros content Hc Hfmt. unfold process_article.
  extract_step. fold content. rewrite Hc, Hfmt.
  destruct (deliver_spec msgs (after w [EvExtract (link a)]))
    as (evs & Hrun & Hobs).
  exists evs. split; [|done].
  erewrite bind_Ok by reflexivity.
  erewrite bind_Ok by exact Hrun.
  unfold bind, save, sleep, record_event, marked_sent, after. cbn.
  by rewrite <- !app_assoc.
Qed.

(** An article whose formatting raises: the exception leaves the loop. *)
Lemma process_article_raise (a : article) (w : world) :
  let content := parse_article_content (article_page e (history w) (link a)) in
  nonempty content = true ->
  format_message (title a) content (link a) = Raise ->
  process_article e a w = (after w [EvExtract (link a)], Raise).
Proof.
  intros content Hc Hfmt. unfold process_article.
  extract_step. fold content. by rewrite Hc, Hfmt.
Qed.

End Steps.

(** ** Delivery failures and the mark as sent *)




(** ** A page without content container *)

Lemma parse_article_content_no_container (status_code : Z) :
  parse_article_content (PageResponse status_code None) = NOT_FOUND.
Proof. reflexivity. Qed.




(** ** Failures of the article request *)

(** An exception of the request or of the parser gives the empty string. *)
Lemma parse_article_content_raised : parse_article_content PageRaised = [].
Proof. reflexivity. Qed.

(** An empty content skips the article: no message, no append. *)
Lemma process_article_skips_empty (e : env) (a : article) (w : world) :
  parse_article_content (article_page e (history w) (link a)) = [] ->
  exists w',
    process_article e a w = (w', Ok tt)
    /\ sent_file w' = sent_file w
    /\ history w' = history w ++ [EvExtract (link a)].
Proof. intros Hc. eexists. split; [by apply process_article_empty|done]. Qed.

(** C5. The home page request raises on an error status
    ([raise_for_status]); the article request does not look at the status.
    A 404 answer without content container is parsed like any page: the
    extractor returns the placeholder, not the empty string, the
    placeholder is sent and the link is appended to the file. *)
Theorem article_error_status_not_a_failure :
  let e := sample_env [] (PageResponse 404 None) (Some 200) in
  (forall anchors, fetch_articles (HomeResponse 404 anchors) = [])
  /\ (forall status_code blocks,
        parse_article_content (PageResponse status_code blocks)
        = parse_article_content (PageResponse 200 blocks))
  /\ parse_article_content (article_page e [] sample_link) = NOT_FOUND
  /\ parse_article_content (article_page e [] sample_link) <> []
  /\ sent (history (fst (process_article e sample_article first_start)))
     = [header (ascii_text "Title") ++ NOT_FOUND ++ footer sample_link]
  /\ sent_file (fst (process_article e sample_article first_start))
     = Some (sample_link ++ [LF]).
Proof. repeat split. discriminate. Qed.

(** ** A decoration as long as the limit, or longer *)



(** ** Links of the listed articles *)

Lemma startswith_prefix (s p : pystr) :
  startswith s p = true <-> exists rest, s = p ++ rest.
Proof.
  revert s. induction p as [|d p IH]; intros s; cbn [startswith].
  - split; [by exists s|done].
  - destruct s as [|c s].
    + split; [done|]. by intros [rest Hrest].
    + rewrite andb_true_iff, N.eqb_eq, IH. split.
      * intros [-> [rest ->]]. by exists rest.
      * intros [rest Hrest]. cbn in Hrest. injection Hrest as -> ->.
        split; [done|]. by exists rest.
Qed.

(** [lstrip_char] removes the longest run of the character at the start. *)
Lemma lstrip_char_spec (c : N) (s : pystr) :
  exists k : nat,
    s = repeat c k ++ lstrip_char c s /\ head (lstrip_char c s) <> Some c.
Proof.
  induction s as [|d s (k & Hk & Hhead)].
  - by exists 0%nat.
  - cbn [lstrip_char]. destruct (N.eqb_spec d c) as [->|Hne].
    + exists (S k). cbn [repeat app]. by rewrite <- Hk.
    + exists 0%nat. split; [done|]. cbn. congruence.
Qed.

Lemma comprehension_lookup {A B} (f : A -> outcome B) (xs : list A)
      (ys : list B) (i : nat) (y : B) :
  comprehension f xs = Ok ys -> ys !! i = Some y ->
  exists x, xs !! i = Some x /\ f x = Ok y.
Proof.
  revert ys i. induction xs as [|x xs IH]; intros ys i; cbn [comprehension].
  - intros Hys. apply Ok_inj in Hys. by subst ys.
  - destruct (f x) as [y0| |] eqn:Hfx; try done. cbn [bind_outcome].
    destruct (comprehension f xs) as [ys0| |]; try done. cbn.
    intros Hys. apply Ok_inj in Hys. subst ys.
    destruct i as [|i]; cbn.
    + intros Hy. apply (inj Some) in Hy. subst y0. by exists x.
    + intros Hy. by apply (IH ys0 i).
Qed.

(** C8. The example of the specification, as the listing of a home page
    with that one anchor; and for every home page answered without error
    status whose selected anchors all have an [href]: the listing has one
    article for each anchor, and the link of the article at the position of
    an anchor is the [href] unchanged when it begins with [http], and
    otherwise the base URL followed by the [href] without its leading
    slashes. Conversely every article of any listing comes from the anchor
    at its position by the same rule. *)
Theorem fetch_articles_resolves_links :
  RBC_URL = ascii_text "https://www.rbc.ru/"
  /\ fetch_articles
       (HomeResponse 200
          [ {| a_text := ascii_text "News";
               a_href := Some (ascii_text "/economy/news1") |} ])
     = [ {| title := ascii_text "News";
            link := ascii_text "https://www.rbc.ru/economy/news1" |} ]
  /\ (forall (status_code : Z) (anchors : list anchor),
        raises_for_status status_code = false ->
        (forall item, item ∈ anchors -> is_Some (a_href item)) ->
        length (fetch_articles (HomeResponse status_code anchors))
        = length anchors
        /\ forall (i : nat) (item : anchor) (href : pystr),
             anchors !! i = Some item -> a_href item = Some href ->
             exists art,
               fetch_articles (HomeResponse status_code anchors) !! i = Some art
               /\ (startswith href HTTP = true -> link art = href)
               /\ (startswith href HTTP = false ->
                   exists (k : nat) (rest : pystr),
                     href = repeat SLASH k ++ rest
                     /\ head rest <> Some SLASH
                     /\ link art = RBC_URL ++ rest))
  /\ (forall (status_code : Z) (anchors : list anchor) (i : nat) (art : article),
        fetch_articles (HomeResponse status_code anchors) !! i = Some art ->
        exists item href,
          anchors !! i = Some item /\ a_href item = Some href
          /\ (startswith href HTTP = true -> link art = href)
          /\ (startswith href HTTP = false ->
              exists (k : nat) (rest : pystr),
                href = repeat SLASH k ++ rest
                /\ head rest <> Some SLASH
                /\ link art = RBC_URL ++ rest)).
Proof.
  split; [reflexivity|]. split; [reflexivity|]. split.
  - intros status_code anchors Hstatus Hhref.
    assert (fetch_articles (HomeResponse status_code anchors)
            = map (fun item =>
                     {| title := strip (a_text item);
                        link := resolve_link (default [] (a_href item)) |})
                  anchors) as ->.
    { unfold fetch_articles. rewrite Hstatus.
      erewrite comprehension_Ok; [done|].
      intros item Hitem. unfold article_of_anchor.
      by destruct (Hhref item Hitem) as [href ->]. }
    split; [by rewrite length_map|].
    intros i item href Hitem Hitem_href. eexists. split.
    { apply list_lookup_fmap_Some. by exists item. }
    cbn [link]. rewrite Hitem_href. cbn [default from_option id].
    unfold resolve_link.
    split; intros Habs; rewrite Habs; [done|].
    destruct (lstrip_char_spec SLASH href) as (k & Hk & Hhead).
    by exists k, (lstrip_char SLASH href).
  - intros status_code anchors i art. unfold fetch_articles.
    destruct (raises_for_status status_code); [done|].
    destruct (comprehension article_of_anchor anchors) as [arts| |] eqn:Harts;
      [|done..].
    intros Hart.
    destruct (comprehension_lookup _ _ _ _ _ Harts Hart) as (item & Hitem & Hof).
    unfold article_of_anchor in Hof.
    destruct (a_href item) as [href|] eqn:Hhref; [|done].
    apply Ok_inj in Hof. subst art. cbn [link].
    exists item, href. split; [done|]. split; [done|].
    unfold resolve_link. split; intros Habs; rewrite Habs; [done|].
    destruct (lstrip_char_spec SLASH href) as (k & Hk & Hhead).
    by exists k, (lstrip_char SLASH href).
Qed.

Lemma fetch_articles_resolves_links_witness :
  length
    (fetch_articles
       (HomeResponse 200
          [ {| a_text := ascii_text " News ";
               a_href := Some (ascii_text "//economy/news1") |};
            {| a_text := ascii_text "Other";
               a_href := Some (ascii_text "http://other.example/x") |} ]))
  = 2%nat
  /\ (exists art,
        fetch_articles
          (HomeResponse 200
             [ {| a_text := ascii_text " News ";
                  a_href := Some (ascii_text "//economy/news1") |};
               {| a_text := ascii_text "Other";
                  a_href := Some (ascii_text "http://other.example/x") |} ])
          !! 0%nat = Some art
        /\ (startswith (ascii_text "//economy/news1") HTTP = true ->
            link art = ascii_text "//economy/news1")
        /\ (startswith (ascii_text "//economy/news1") HTTP = false ->
            exists (k : nat) (rest : pystr),
              ascii_text "//economy/news1" = repeat SLASH k ++ rest
              /\ head rest <> Some SLASH
              /\ link art = RBC_URL ++ rest))
  /\ (exists art,
        fetch_articles
          (HomeResponse 200
             [ {| a_text := ascii_text " News ";
                  a_href := Some (ascii_text "//economy/news1") |};
               {| a_text := ascii_text "Other";
                  a_href := Some (ascii_text "http://other.example/x") |} ])
          !! 1%nat = Some art
        /\ (startswith (ascii_text "http://other.example/x") HTTP = true ->
            link art = ascii_text "http://other.example/x")
        /\ (startswith (ascii_text "http://other.example/x") HTTP = false ->
            exists (k : nat) (rest : pystr),
              ascii_text "http://other.example/x" = repeat SLASH k ++ rest
              /\ head rest <> Some SLASH
              /\ link art = RBC_URL ++ rest)).
Proof.
  pose (first := {| a_text := ascii_text " News ";
                    a_href := Some (ascii_text "//economy/news1") |}).
  pose (second := {| a_text := ascii_text "Other";
                     a_href := Some (ascii_text "http://other.example/x") |}).
  assert (forall item, item ∈ [first; second] -> is_Some (a_href item)) as Hhref.
  { intros item Hitem.
    apply elem_of_cons in Hitem as [->|Hitem]; [by eexists|].
    apply elem_of_cons in Hitem as [->|Hitem]; [by eexists|].
    by apply elem_of_nil in Hitem. }
  destruct (proj1 (proj2 (proj2 fetch_articles_resolves_links))
              200 [first; second] eq_refl Hhref) as [Hlen Hlinks].
  split; [exact Hlen|]. split.
  - exact (Hlinks 0%nat first (ascii_text "//economy/news1") eq_refl eq_refl).
  - exact (Hlinks 1%nat second (ascii_text "http://other.example/x")
             eq_refl eq_refl).
Defined.

(** ** The sent-articles file across appends *)

Lemma terminated_text (text : pystr) :
  terminated (Some text) = true -> text = [] \/ last text = Some LF.
Proof.
  unfold terminated. destruct (last text) as [c|] eqn:Hlast.
  - intros Hc. apply N.eqb_eq in Hc. subst c. by right.
  - intros _. left. by apply last_None.
Qed.

Lemma save_sent_article_terminated (l : pystr) (f : option pystr) :
  terminated (save_sent_article l f) = true.
Proof.
  unfold save_sent_article, terminated.
  by rewrite !app_assoc, last_snoc.
Qed.

Lemma readlines_nil_inv (text : pystr) : readlines text = [] -> text = [].
Proof.
  destruct text as [|c rest]; [done|]. cbn [readlines].
  destruct (c =? LF)%N; [done|]. destruct (c =? CR)%N.
  - destruct rest as [|d rest']; [done|]. by destruct (d =? LF)%N.
  - by destruct (readlines rest).
Qed.

Lemma last_cons_cons {A} (x y : A) (l : list A) :
  last (x :: y :: l) = last (y :: l).
Proof. reflexivity. Qed.

(** Text appended to a terminated text starts new lines. *)
Lemma readlines_app (n : nat) (text more : pystr) :
  (length text <= n)%nat ->
  text = [] \/ last text = Some LF ->
  readlines (text ++ more) = readlines text ++ readlines more.
Proof.
  revert text. induction n as [|n IH]; intros text Hlen Hend.
  { destruct text; [done|cbn in Hlen; lia]. }
  destruct text as [|c rest]; [done|]. cbn [length] in Hlen.
  destruct Hend as [Hnil|Hlast]; [done|].
  assert (rest = [] \/ last rest = Some LF) as Hrest.
  { destruct rest as [|d rest']; [by left|right].
    by rewrite last_cons_cons in Hlast. }
  cbn [app readlines].
  destruct (N.eqb_spec c LF) as [->|HcLF].
  { rewrite IH by (done || lia). done. }
  assert (rest <> []) as Hne.
  { intros ->. cbn in Hlast. congruence. }
  destruct (c =? CR)%N.
  - destruct rest as [|d rest']; [done|]. cbn [app].
    destruct (N.eqb_spec d LF) as [->|HdLF].
    + assert (rest' = [] \/ last rest' = Some LF) as Hrest'.
      { destruct rest' as [|d' rest'']; [by left|right].
        destruct Hrest as [|Hrest]; [done|].
        by rewrite last_cons_cons in Hrest. }
      cbn [length] in Hlen. rewrite IH by (done || lia). done.
    + change (d :: rest' ++ more) with ((d :: rest') ++ more).
      rewrite (IH (d :: rest')) by (done || lia). done.
  - rewrite IH by (done || lia).
    destruct (readlines rest) as [|line lines] eqn:Hlines; [|done].
    by apply readlines_nil_inv in Hlines.
Qed.

(** A link without line break, followed by a line feed, is one line. *)
Lemma readlines_one_line (l : pystr) :
  LF ∉ l -> CR ∉ l -> readlines (l ++ [LF]) = [l ++ [LF]].
Proof.
  induction l as [|c l IH]; intros HLF HCR; [done|].
  apply not_elem_of_cons in HLF as [HcLF HLF].
  apply not_elem_of_cons in HCR as [HcCR HCR].
  cbn [app readlines].
  destruct (N.eqb_spec c LF); [congruence|].
  destruct (N.eqb_spec c CR); [congruence|].
  by rewrite IH.
Qed.

Lemma lstrip_length (s : pystr) : (length (lstrip s) <= length s)%nat.
Proof.
  induction s as [|c s IH]; cbn; [lia|]. destruct (isspace c); cbn; lia.
Qed.

Lemma rstrip_length (s : pystr) : (length (rstrip s) <= length s)%nat.
Proof.
  unfold rstrip. rewrite length_reverse.
  pose proof (lstrip_length (reverse s)) as H.
  by rewrite length_reverse in H.
Qed.

Lemma lstrip_fixed (s : pystr) :
  length (lstrip s) = length s -> lstrip s = s.
Proof.
  destruct s as [|c s]; [done|]. cbn. destruct (isspace c); [|done].
  pose proof (lstrip_length s). lia.
Qed.

Lemma strip_fixed (s : pystr) : strip s = s -> lstrip s = s /\ rstrip s = s.
Proof.
  intros Hs. unfold strip in Hs.
  assert (lstrip s = s) as Hl.
  { apply lstrip_fixed. pose proof (lstrip_length s).
    pose proof (rstrip_length (lstrip s)).
    rewrite Hs in *. lia. }
  split; [done|]. by rewrite Hl in Hs.
Qed.

Lemma lstrip_snoc_space (s : pystr) (c : N) :
  isspace c = true ->
  lstrip (s ++ [c]) = match lstrip s with [] => [] | _ => lstrip s ++ [c] end.
Proof.
  intros Hc. induction s as [|d s IH]; cbn [app lstrip].
  - by rewrite Hc.
  - by destruct (isspace d).
Qed.

Lemma rstrip_snoc_space (s : pystr) (c : N) :
  isspace c = true -> rstrip (s ++ [c]) = rstrip s.
Proof.
  intros Hc. unfold rstrip. rewrite reverse_snoc. cbn [lstrip]. by rewrite Hc.
Qed.

(** What [load_sent_articles] reads back from the line written for [l]:
    the line feed is stripped, and so is any other space around [l]. *)
Lemma strip_line_feed (l : pystr) : strip (l ++ [LF]) = strip l.
Proof.
  unfold strip. rewrite lstrip_snoc_space by done.
  destruct (lstrip l) as [|c s] eqn:Hl; [done|].
  by rewrite rstrip_snoc_space.
Qed.

Lemma strip_written_line (l : pystr) : strip l = l -> strip (l ++ [LF]) = l.
Proof. intros Hl. by rewrite strip_line_feed. Qed.

Lemma load_after_save (l : pystr) (f : option pystr) :
  terminated f = true ->
  load_sent_articles (save_sent_article l f)
  = load_sent_articles f ∪ list_to_set (map strip (readlines (l ++ [LF]))).
Proof.
  intros Hf. unfold save_sent_article, load_sent_articles.
  destruct f as [text|]; cbn [default].
  - rewrite (readlines_app (length text)) by (done || by apply terminated_text).
    by rewrite map_app, list_to_set_app_L.
  - by rewrite app_nil_l, union_empty_l_L.
Qed.

Lemma load_sent_articles_monotone (l : pystr) (f : option pystr) :
  terminated f = true ->
  load_sent_articles f ⊆ load_sent_articles (save_sent_article l f).
Proof. intros Hf. rewrite load_after_save by done. set_solver. Qed.

(** A link without line break that was saved is in the set of the next load
    exactly when [strip] leaves it unchanged, unless it was there before. *)
Lemma saved_link_loaded_iff (l : pystr) (f : option pystr) :
  terminated f = true -> LF ∉ l -> CR ∉ l ->
  l ∈ load_sent_articles (save_sent_article l f)
  <-> l ∈ load_sent_articles f \/ strip l = l.
Proof.
  intros Hf HLF HCR. rewrite load_after_save by done.
  rewrite readlines_one_line by done. cbn [map].
  rewrite strip_line_feed, elem_of_union.
  cbn [list_to_set]. rewrite union_empty_r_L, elem_of_singleton.
  split; (intros [H|H]; [by left|by right]).
Qed.

(** A plain link that was saved is in the set of the next load. *)
Lemma saved_plain_link_loaded (l : pystr) (f : option pystr) :
  terminated f = true -> plain_link l ->
  l ∈ load_sent_articles (save_sent_article l f).
Proof.
  intros Hf (Hs & HLF & HCR). rewrite load_after_save by done.
  rewrite readlines_one_line by done. cbn [map].
  rewrite strip_written_line by done. set_solver.
Qed.

(** ** What the loop does to the world *)

Lemma advances_refl (w : world) : advances w w [].
Proof. split; [by rewrite app_nil_r|done]. Qed.

Lemma advances_trans (w w1 w2 : world) (evs1 evs2 : list event) :
  advances w w1 evs1 -> advances w1 w2 evs2 -> advances w w2 (evs1 ++ evs2).
Proof.
  intros [Hh1 Hf1] [Hh2 Hf2]. split.
  - by rewrite Hh2, Hh1, app_assoc.
  - intros Hw. destruct (Hf1 Hw) as [Ht1 Hs1].
    destruct (Hf2 Ht1) as [Ht2 Hs2]. split; [done|by etrans].
Qed.

Lemma advances_after (w : world) (evs : list event) :
  advances w (after w evs) evs.
Proof. by split. Qed.

Lemma advances_marked_sent (l : pystr) (w : world) (evs : list event) :
  advances w (marked_sent l w evs) evs.
Proof.
  split; [done|]. intros Hw. cbn [marked_sent sent_file].
  split; [apply save_sent_article_terminated|].
  by apply load_sent_articles_monotone.
Qed.

Create HintDb world_steps.
#[local] Hint Resolve advances_refl advances_after advances_marked_sent
  : world_steps.

Lemma nonempty_false (s : pystr) : nonempty s = false -> s = [].
Proof. by destruct s. Qed.

Section Loop.

Variable e : env.

(** The outcome of the loop body, by cases on the content and on the
    outcome of [format_message]. *)
Lemma process_article_cases (a : article) (w : world) :
  let content := parse_article_content (article_page e (history w) (link a)) in
  (exists r, process_article e a w = (after w [EvExtract (link a)], r)
             /\ (r = Ok tt -> content = []))
  \/ (exists evs msgs,
        process_article e a w
        = (marked_sent (link a) w
             ([EvExtract (link a)] ++ evs ++ [EvSave (link a); EvSleep 2]),
           Ok tt)
        /\ nonempty content = true
        /\ format_message (title a) content (link a) = Ok msgs
        /\ sent evs = msgs /\ saved evs = [] /\ extracted evs = []).
Proof.
  intros content. destruct (nonempty content) eqn:Hc.
  - destruct (format_message (title a) content (link a)) as [msgs| |] eqn:Hfmt.
    + right.
      destruct (process_article_messages e a w msgs Hc Hfmt) as (evs & Hrun & Hobs).
      by exists evs, msgs.
    + left. exists Raise. split; [by apply process_article_raise|done].
    + left. exists Unmodelled. split; [|done]. unfold process_article.
      extract_step. fold content. by rewrite Hc, Hfmt.
  - left. exists (Ok tt). apply nonempty_false in Hc.
    split; [by apply process_article_empty|done].
Qed.

Lemma process_article_advances (a : article) (w : world) :
  exists evs,
    advances w (fst (process_article e a w)) evs
    /\ extracted evs = [link a].
Proof.
  destruct (process_article_cases a w)
    as [(r & -> & _)|(evs & msgs & -> & _ & _ & _ & _ & Hextr)].
  - eexists. split; [cbn [fst]; eauto with world_steps|done].
  - eexists. split; [cbn [fst]; eauto with world_steps|].
    rewrite !extracted_app, Hextr. done.
Qed.

Lemma for_each_cons {A} (body : A -> M unit) (x : A) (xs : list A) (w : world) :
  for_each body (x :: xs) w
  = match body x w with
    | (w1, Ok _) => for_each body xs w1
    | (w1, Raise) => (w1, Raise)
    | (w1, Unmodelled) => (w1, Unmodelled)
    end.
Proof. reflexivity. Qed.

Lemma for_each_advances (arts : list article) (w : world) :
  exists evs,
    advances w (fst (for_each (process_article e) arts w)) evs
    /\ forall u, u ∈ extracted evs -> u ∈ map link arts.
Proof.
  revert w. induction arts as [|a arts IH]; intros w.
  - exists []. split; [apply advances_refl|].
    intros u Hu. by apply elem_of_nil in Hu.
  - rewrite for_each_cons.
    destruct (process_article_advances a w) as (evs1 & Hadv1 & Hex1).
    destruct (process_article e a w) as [w1 [[]| |]]; cbn [fst] in Hadv1.
    + destruct (IH w1) as (evs2 & Hadv2 & Hex2).
      exists (evs1 ++ evs2). split; [by eapply advances_trans|].
      intros u Hu. rewrite extracted_app, Hex1 in Hu. cbn [map].
      apply elem_of_app in Hu as [Hu|Hu].
      * apply list_elem_of_singleton in Hu as ->. apply list_elem_of_here.
      * by apply list_elem_of_further, Hex2.
    + exists evs1. split; [done|]. intros u Hu. rewrite Hex1 in Hu. cbn [map].
      apply list_elem_of_singleton in Hu as ->. apply list_elem_of_here.
    + exists evs1. split; [done|]. intros u Hu. rewrite Hex1 in Hu. cbn [map].
      apply list_elem_of_singleton in Hu as ->. apply list_elem_of_here.
Qed.

Lemma cycle_unfold (w : world) :
  cycle e w
  = if read_error e (history w) then (w, Raise)
    else
      match for_each (process_article e)
              (new_articles (load_sent_articles (sent_file w))
                 (fetch_articles (home_page e (history w))))
              (after w [EvFetch]) with
      | (w1, Ok _) => sleep e (CHECK_INTERVAL e) w1
      | (w1, Raise) => (w1, Raise)
      | (w1, Unmodelled) => (w1, Unmodelled)
      end.
Proof. unfold cycle, bind, load. by destruct (read_error e (history w)). Qed.

Lemma sleep_run (seconds : Z) (w : world) :
  sleep e seconds w
  = if sleep_raises e (history w) seconds then (w, Raise)
    else (after w [EvSleep seconds], Ok tt).
Proof. reflexivity. Qed.

(** A length that Python and the operating system accept. *)
Lemma sleep_accepted (seconds : Z) (h : list event) :
  0 <= seconds -> seconds <= SLEEP_MAX -> os_refuses e h seconds = false ->
  sleep_raises e h seconds = false.
Proof.
  intros Hlo Hhi Hos. unfold sleep_raises. rewrite Hos, andb_false_r.
  destruct (Z.ltb_spec seconds 0); [lia|].
  destruct (Z.ltb_spec SLEEP_MAX seconds); [lia|]. done.
Qed.

Lemma new_articles_not_sent (s : gset pystr) (arts : list article) (u : pystr) :
  u ∈ map link (new_articles s arts) -> u ∉ s.
Proof.
  intros Hu. apply list_elem_of_fmap in Hu as (a & -> & Ha).
  unfold new_articles in Ha. by apply list_elem_of_filter in Ha as [Hnot _].
Qed.

(** In one cycle only links outside the set loaded at its start reach the
    extractor. *)
Lemma cycle_advances (w : world) :
  exists evs,
    advances w (fst (cycle e w)) evs
    /\ forall u, u ∈ extracted evs -> u ∉ load_sent_articles (sent_file w).
Proof.
  rewrite cycle_unfold. destruct (read_error e (history w)).
  { exists []. split; [apply advances_refl|].
    intros u Hu. by apply elem_of_nil in Hu. }
  set (news := new_articles _ _).
  destruct (for_each_advances news (after w [EvFetch])) as (evs & Hadv & Hex).
  pose proof (advances_after w [EvFetch]) as Hfetch.
  assert (forall u, u ∈ extracted ([EvFetch] ++ evs) ->
                    u ∉ load_sent_articles (sent_file w)) as Hnot.
  { intros u Hu. rewrite extracted_app in Hu. cbn in Hu.
    by eapply new_articles_not_sent, Hex. }
  destruct (for_each (process_article e) news (after w [EvFetch]))
    as [w1 [[]| |]]; cbn [fst] in *.
  - rewrite sleep_run. destruct (sleep_raises e _ _); cbn [fst].
    { exists ([EvFetch] ++ evs). split; [by eapply advances_trans|done]. }
    exists (([EvFetch] ++ evs) ++ [EvSleep (CHECK_INTERVAL e)]). split.
    + eapply advances_trans; [by eapply advances_trans|apply advances_after].
    + intros u Hu. rewrite extracted_app in Hu. cbn [extracted omap] in Hu.
      rewrite app_nil_r in Hu. by apply Hnot.
  - exists ([EvFetch] ++ evs). split; [by eapply advances_trans|done].
  - exists ([EvFetch] ++ evs). split; [by eapply advances_trans|done].
Qed.

Lemma run_succ (n : nat) (w : world) :
  run e (S n) w
  = match cycle e w with
    | (w1, Ok _) => run e n w1
    | (w1, Raise) => (w1, Raise)
    | (w1, Unmodelled) => (w1, Unmodelled)
    end.
Proof. reflexivity. Qed.

Lemma run_advances (n : nat) (w : world) :
  exists evs,
    advances w (fst (run e n w)) evs
    /\ (terminated (sent_file w) = true ->
        forall u, u ∈ extracted evs -> u ∉ load_sent_articles (sent_file w)).
Proof.
  revert w. induction n as [|n IH]; intros w.
  - exists []. split; [apply advances_refl|].
    intros _ u Hu. by apply elem_of_nil in Hu.
  - rewrite run_succ.
    destruct (cycle_advances w) as (evs1 & Hadv1 & Hex1).
    destruct (cycle e w) as [w1 [[]| |]]; cbn [fst] in Hadv1.
    + destruct (IH w1) as (evs2 & Hadv2 & Hex2).
      exists (evs1 ++ evs2). split; [by eapply advances_trans|].
      intros Hw u Hu. rewrite extracted_app in Hu.
      destruct Hadv1 as [_ Hfile]. destruct (Hfile Hw) as [Hw1 Hsub].
      apply elem_of_app in Hu as [Hu|Hu]; [by apply Hex1|].
      intros Hin. by apply (Hex2 Hw1 u Hu), Hsub.
    + exists evs1. split; [done|]. intros _. exact Hex1.
    + exists evs1. split; [done|]. intros _. exact Hex1.
Qed.

(** A link in the set that [load_sent_articles] reads is passed to the
    extractor by no later cycle. *)
Lemma loaded_link_not_extracted (n : nat) (w : world) (l : pystr) :
  terminated (sent_file w) = true ->
  l ∈ load_sent_articles (sent_file w) ->
  exists evs,
    history (fst (run e n w)) = history w ++ evs /\ l ∉ extracted evs.
Proof.
  intros Hw Hl. destruct (run_advances n w) as (evs & [Hh _] & Hex).
  exists evs. split; [done|]. intros Hin. by apply (Hex Hw l Hin).
Qed.

(** A plain link that the loop body has marked as sent is passed to the
    extractor by no later cycle. *)
Lemma marked_plain_link_not_extracted
      (n : nat) (w : world) (l : pystr) (evs0 : list event) :
  terminated (sent_file w) = true -> plain_link l ->
  exists evs,
    history (fst (run e n (marked_sent l w evs0)))
    = history (marked_sent l w evs0) ++ evs
    /\ l ∉ extracted evs.
Proof.
  intros Hw Hl. apply loaded_link_not_extracted.
  - apply save_sent_article_terminated.
  - by apply saved_plain_link_loaded.
Qed.

End Loop.

(** ** A link that is saved but not read back *)

(** C2. An [href] with a trailing space gives a link with a trailing space.
    The first cycle appends it to the file as it is; [load_sent_articles]
    strips the line, so the set of the second cycle holds the link without
    the space, the filter keeps the article and the link is passed to the
    extractor and delivered again. *)
Theorem link_with_trailing_space_extracted_again :
  let l := ascii_text "https://www.rbc.ru/economy/news1 " in
  let e := sample_env [ascii_text "/economy/news1 "]
             (PageResponse 200 (Some [ascii_text "Text"])) (Some 200) in
  let w1 := fst (run e 1 first_start) in
  let w2 := fst (run e 1 w1) in
  map link (fetch_articles (home_page e [])) = [l]
  /\ saved (history w1) = [l]
  /\ sent_file w1 = Some (l ++ [LF])
  /\ load_sent_articles (sent_file w1)
     = {[ ascii_text "https://www.rbc.ru/economy/news1" ]}
  /\ extracted (drop (length (history w1)) (history w2)) = [l]
  /\ sent (drop (length (history w1)) (history w2)) = sent (history w1)
  /\ saved (history w2) = [l; l].
Proof.
  cbv zeta. split; [reflexivity|]. split; [by vm_compute|].
  split; [by vm_compute|]. split.
  - assert (sent_file
              (fst (run (sample_env [ascii_text "/economy/news1 "]
                          (PageResponse 200 (Some [ascii_text "Text"])) (Some 200))
                      1 first_start))
            = Some (ascii_text "https://www.rbc.ru/economy/news1 " ++ [LF])) as ->
      by by vm_compute.
    unfold load_sent_articles.
    replace (readlines (ascii_text "https://www.rbc.ru/economy/news1 " ++ [LF]))
      with [ascii_text "https://www.rbc.ru/economy/news1 " ++ [LF]]
      by by vm_compute.
    cbn [map list_to_set].
    replace (strip (ascii_text "https://www.rbc.ru/economy/news1 " ++ [LF]))
      with (ascii_text "https://www.rbc.ru/economy/news1") by by vm_compute.
    apply union_empty_r_L.
  - repeat split; by vm_compute.
Qed.

(** ** The file and the history *)

Lemma written_lines_app (xs ys : list pystr) :
  written_lines (xs ++ ys) = written_lines xs ++ written_lines ys.
Proof. unfold written_lines. by rewrite map_app, concat_app. Qed.

Lemma saved_nil_no_save (evs : list event) (i : nat) (l : pystr) :
  saved evs = [] -> evs !! i <> Some (EvSave l).
Proof.
  intros Hs Hi. assert (l ∈ saved evs) as Hl.
  { apply list_elem_of_omap. exists (EvSave l).
    split; [by eapply list_elem_of_lookup_2|done]. }
  rewrite Hs in Hl. by apply elem_of_nil in Hl.
Qed.

Lemma saved_after_extracted_nil (evs : list event) :
  saved evs = [] -> saved_after_extracted evs.
Proof. intros Hs i l Hi. by destruct (saved_nil_no_save evs i l Hs). Qed.

Lemma saved_after_extracted_app (evs1 evs2 : list event) :
  saved_after_extracted evs1 -> saved_after_extracted evs2 ->
  saved_after_extracted (evs1 ++ evs2).
Proof.
  intros H1 H2 i l Hi. apply lookup_app_Some in Hi as [Hi|[Hle Hi]].
  - destruct (H1 i l Hi) as (j & Hj & Hx). exists j. split; [done|].
    by apply lookup_app_l_Some.
  - destruct (H2 _ l Hi) as (j & Hj & Hx). exists (length evs1 + j)%nat.
    split; [lia|]. rewrite lookup_app_r by lia.
    by replace (length evs1 + j - length evs1)%nat with j by lia.
Qed.

Lemma records_refl (w : world) : records w w [].
Proof.
  split; [by rewrite app_nil_r|]. split; [done|].
  by apply saved_after_extracted_nil.
Qed.

Lemma records_trans (w w1 w2 : world) (evs1 evs2 : list event) :
  records w w1 evs1 -> records w1 w2 evs2 -> records w w2 (evs1 ++ evs2).
Proof.
  intros (Hh1 & Hf1 & Hs1) (Hh2 & Hf2 & Hs2). split; [|split].
  - by rewrite Hh2, Hh1, app_assoc.
  - rewrite saved_app, Hf2. destruct (saved evs1) as [|l1 ls1].
    + by rewrite app_nil_l, Hf1.
    + cbn [app].
      change (l1 :: ls1 ++ saved evs2) with ((l1 :: ls1) ++ saved evs2).
      rewrite written_lines_app, Hf1.
      destruct (saved evs2) as [|l2 ls2]; cbn [default].
      * unfold written_lines at 2. cbn. by rewrite app_nil_r.
      * by rewrite app_assoc.
  - by apply saved_after_extracted_app.
Qed.

Lemma records_after (w : world) (evs : list event) :
  saved evs = [] -> records w (after w evs) evs.
Proof.
  intros Hs. split; [done|]. rewrite Hs. split; [done|].
  by apply saved_after_extracted_nil.
Qed.

Lemma records_marked_sent (l : pystr) (w : world) (evs : list event) :
  saved evs = [] -> extracted evs = [] ->
  records w
    (marked_sent l w ([EvExtract l] ++ evs ++ [EvSave l; EvSleep 2]))
    ([EvExtract l] ++ evs ++ [EvSave l; EvSleep 2]).
Proof.
  intros Hs Hx. split; [done|]. split.
  - rewrite !saved_app, Hs. cbn.
    unfold save_sent_article, written_lines. cbn. by rewrite app_nil_r.
  - intros i l' Hi. destruct i as [|i]; [done|]. cbn in Hi.
    exists 0%nat. split; [lia|]. cbn.
    apply lookup_app_Some in Hi as [Hi|[_ Hi]].
    + by destruct (saved_nil_no_save evs i l' Hs).
    + destruct (i - length evs)%nat as [|[|k]]; cbn in Hi; [|done..].
      by injection Hi as ->.
Qed.

Section History.

Variable e : env.

Lemma process_article_records (a : article) (w : world) :
  exists evs,
    records w (fst (process_article e a w)) evs /\ extracted evs = [link a].
Proof.
  destruct (process_article_cases e a w)
    as [(r & -> & _)|(evs & msgs & -> & _ & _ & _ & Hs & Hx)]; cbn [fst].
  - eexists. split; [by apply records_after|done].
  - eexists. split; [by apply records_marked_sent|].
    by rewrite !extracted_app, Hx.
Qed.

Lemma for_each_records (arts : list article) (w : world) :
  exists evs,
    records w (fst (for_each (process_article e) arts w)) evs
    /\ extracted evs `prefix_of` map link arts
    /\ (snd (for_each (process_article e) arts w) = Ok tt ->
        extracted evs = map link arts).
Proof.
  revert w. induction arts as [|a arts IH]; intros w.
  - exists []. split; [apply records_refl|]. by split.
  - rewrite for_each_cons.
    destruct (process_article_records a w) as (evs1 & Hrec1 & Hx1).
    destruct (process_article e a w) as [w1 [[]| |]]; cbn [fst] in Hrec1.
    + destruct (IH w1) as (evs2 & Hrec2 & Hpre & Hall).
      exists (evs1 ++ evs2). split; [by eapply records_trans|].
      rewrite extracted_app, Hx1. cbn [map app]. split.
      * by apply prefix_cons.
      * intros Hok. by rewrite Hall.
    + exists evs1. split; [done|]. rewrite Hx1. cbn [map snd]. split; [|done].
      apply prefix_cons, prefix_nil.
    + exists evs1. split; [done|]. rewrite Hx1. cbn [map snd]. split; [|done].
      apply prefix_cons, prefix_nil.
Qed.

Lemma cycle_records (w : world) :
  let news := new_articles (load_sent_articles (sent_file w))
                (fetch_articles (home_page e (history w))) in
  exists evs,
    records w (fst (cycle e w)) evs
    /\ extracted evs `prefix_of` map link news
    /\ (snd (cycle e w) = Ok tt -> extracted evs = map link news).
Proof.
  intros news. rewrite cycle_unfold. fold news.
  destruct (read_error e (history w)).
  { exists []. split; [apply records_refl|]. split; [apply prefix_nil|done]. }
  destruct (for_each_records news (after w [EvFetch])) as (evs & Hrec & Hpre & Hall).
  assert (records w (after w [EvFetch]) [EvFetch]) as Hfetch
    by by apply records_after.
  destruct (for_each (process_article e) news (after w [EvFetch]))
    as [w1 [[]| |]]; cbn [fst snd] in *.
  - rewrite sleep_run. destruct (sleep_raises e _ _); cbn [fst snd].
    + exists ([EvFetch] ++ evs). split; [by eapply records_trans|].
      rewrite extracted_app. by split.
    + exists (([EvFetch] ++ evs) ++ [EvSleep (CHECK_INTERVAL e)]). split.
      * eapply records_trans; [by eapply records_trans|by apply records_after].
      * rewrite !extracted_app. cbn. rewrite app_nil_r. split; [done|].
        intros _. by apply Hall.
  - exists ([EvFetch] ++ evs). split; [by eapply records_trans|].
    rewrite extracted_app. by split.
  - exists ([EvFetch] ++ evs). split; [by eapply records_trans|].
    rewrite extracted_app. by split.
Qed.

Lemma run_records (n : nat) (w : world) :
  exists evs, records w (fst (run e n w)) evs.
Proof.
  revert w. induction n as [|n IH]; intros w.
  - exists []. apply records_refl.
  - rewrite run_succ. destruct (cycle_records w) as (evs1 & Hrec1 & _).
    destruct (cycle e w) as [w1 [[]| |]]; cbn [fst] in Hrec1.
    + destruct (IH w1) as (evs2 & Hrec2). exists (evs1 ++ evs2).
      by eapply records_trans.
    + by exists evs1.
    + by exists evs1.
Qed.

End History.

(** ** The same link twice in one listing *)











(** * Further properties of the code *)

(** ** The sent-articles file: what a save adds to the next load *)

(** X1. Saving a link without line break to a terminated file adds exactly
    its stripped form to the set that the next load returns. *)
Theorem load_after_saving_one_line (l : pystr) (f : option pystr) :
  terminated f = true -> LF ∉ l -> CR ∉ l ->
  load_sent_articles (save_sent_article l f)
  = load_sent_articles f ∪ {[ strip l ]}.
Proof.
  intros Hf HLF HCR. rewrite load_after_save by done.
  rewrite readlines_one_line by done. cbn [map list_to_set].
  by rewrite strip_line_feed, union_empty_r_L.
Qed.

Lemma load_after_saving_one_line_witness :
  load_sent_articles
    (save_sent_article (ascii_text " https://x/1 ")
       (Some (ascii_text "a" ++ [LF])))
  = load_sent_articles (Some (ascii_text "a" ++ [LF]))
    ∪ {[ strip (ascii_text " https://x/1 ") ]}.
Proof.
  apply (load_after_saving_one_line (ascii_text " https://x/1 ")
           (Some (ascii_text "a" ++ [LF]))).
  - reflexivity.
  - by apply (bool_decide_unpack _); vm_compute.
  - by apply (bool_decide_unpack _); vm_compute.
Defined.

(** X2. Saving the same link a second time does not change the set that the
    next load returns: duplicates in the file are harmless. *)
Theorem saving_twice_loads_the_same (l : pystr) (f : option pystr) :
  terminated f = true ->
  load_sent_articles (save_sent_article l (save_sent_article l f))
  = load_sent_articles (save_sent_article l f).
Proof.
  intros Hf.
  rewrite (load_after_save l (save_sent_article l f))
    by apply save_sent_article_terminated.
  rewrite load_after_save by done.
  by rewrite <- union_assoc_L, union_idemp_L.
Qed.

Lemma saving_twice_loads_the_same_witness :
  load_sent_articles
    (save_sent_article sample_link (save_sent_article sample_link None))
  = load_sent_articles (save_sent_article sample_link None).
Proof. exact (saving_twice_loads_the_same sample_link None eq_refl). Defined.

(** X3. Over any number of cycles a terminated file stays terminated and the
    set that a load returns only grows: no link leaves it. The statement is
    about the runs that stay within the embedded part of [str.format]: the
    outcome of the run is not [Unmodelled]. *)
Theorem run_keeps_loaded_links (e : env) (n : nat) (w : world) :
  snd (run e n w) <> Unmodelled ->
  terminated (sent_file w) = true ->
  terminated (sent_file (fst (run e n w))) = true
  /\ load_sent_articles (sent_file w)
     ⊆ load_sent_articles (sent_file (fst (run e n w))).
Proof.
  intros _ Hw. destruct (run_advances e n w) as (evs & [_ Hfile] & _).
  by apply Hfile.
Qed.

Lemma run_keeps_loaded_links_witness :
  terminated
    (sent_file
       (fst (run (sample_env [ascii_text "/economy/news1"]
                    (PageResponse 200 (Some [ascii_text "Text"])) (Some 200))
               2 first_start))) = true
  /\ load_sent_articles (sent_file first_start)
     ⊆ load_sent_articles
         (sent_file
            (fst (run (sample_env [ascii_text "/economy/news1"]
                         (PageResponse 200 (Some [ascii_text "Text"])) (Some 200))
                    2 first_start))).
Proof.
  apply (run_keeps_loaded_links
           (sample_env [ascii_text "/economy/news1"]
              (PageResponse 200 (Some [ascii_text "Text"])) (Some 200))
           2 first_start).
  - by vm_compute.
  - reflexivity.
Defined.

(** X4. In one cycle the links passed to the extractor are, in listing
    order, the links of the listed articles that are not in the set loaded
    at the start of the cycle: all of them when the cycle completes, a
    prefix of them when an exception ends it. No link of the loaded set is
    among them. The statement is about the cycles that stay within the
    embedded part of [str.format]: the outcome is not [Unmodelled]. *)
Theorem cycle_extracts_new_articles_in_order (e : env) (w : world) :
  snd (cycle e w) <> Unmodelled ->
  exists evs,
    history (fst (cycle e w)) = history w ++ evs
    /\ extracted evs
       `prefix_of` map link
                     (new_articles (load_sent_articles (sent_file w))
                        (fetch_articles (home_page e (history w))))
    /\ (snd (cycle e w) = Ok tt ->
        extracted evs
        = map link
            (new_articles (load_sent_articles (sent_file w))
               (fetch_articles (home_page e (history w)))))
    /\ (forall u, u ∈ extracted evs -> u ∉ load_sent_articles (sent_file w)).
Proof.
  intros _. destruct (cycle_records e w) as (evs & (Hh & _) & Hpre & Hall).
  exists evs. split; [done|]. split; [done|]. split; [done|].
  intros u Hu. apply (new_articles_not_sent _ (fetch_articles (home_page e (history w)))).
  destruct Hpre as [k ->]. apply elem_of_app. by left.
Qed.

Lemma cycle_extracts_new_articles_in_order_witness :
  exists evs,
    history
      (fst (cycle (sample_env [ascii_text "/economy/news1"; ascii_text "/b"]
                     (PageResponse 200 (Some [ascii_text "Text"])) (Some 200))
              {| sent_file := Some (sample_link ++ [LF]); history := [] |}))
    = [] ++ evs
    /\ extracted evs = [ascii_text "https://www.rbc.ru/b"]
    /\ (forall u, u ∈ extracted evs -> u ∉ ({[ sample_link ]} : gset pystr)).
Proof.
  pose (e := sample_env [ascii_text "/economy/news1"; ascii_text "/b"]
               (PageResponse 200 (Some [ascii_text "Text"])) (Some 200)).
  pose (w := {| sent_file := Some (sample_link ++ [LF]); history := [] |}).
  assert (snd (cycle e w) <> Unmodelled) as Hmodel by by vm_compute.
  assert (snd (cycle e w) = Ok tt) as Hdone by by vm_compute.
  assert (load_sent_articles (sent_file w) = {[ sample_link ]}) as Hset.
  { unfold load_sent_articles, w. cbn [sent_file].
    replace (readlines (sample_link ++ [LF])) with [sample_link ++ [LF]]
      by by vm_compute.
    cbn [map list_to_set].
    replace (strip (sample_link ++ [LF])) with sample_link by by vm_compute.
    apply union_empty_r_L. }
  destruct (cycle_extracts_new_articles_in_order e w Hmodel)
    as (evs & Hh & _ & Hall & Hnot).
  exists evs. split; [exact Hh|]. split.
  - rewrite (Hall Hdone), Hset. unfold new_articles.
    replace (fetch_articles (home_page e (history w)))
      with [sample_article;
            {| title := ascii_text "Title";
               link := ascii_text "https://www.rbc.ru/b" |}]
      by by vm_compute.
    rewrite filter_cons_False
      by (intros Hnew; apply Hnew; by apply elem_of_singleton).
    rewrite filter_cons_True; [done|].
    intros Hin. apply elem_of_singleton in Hin. by vm_compute in Hin.
  - by rewrite <- Hset.
Defined.

(** X5. Over any number of cycles the file is only appended to: it is the
    file before followed by one line for each save, in the order of the
    saves, and it is left as it was when nothing is saved. Every save comes
    after a request for the page of the same link, earlier in the same run.
    The statement is about the runs that stay within the embedded part of
    [str.format]: the outcome of the run is not [Unmodelled]. *)
Theorem run_file_follows_saves (e : env) (n : nat) (w : world) :
  snd (run e n w) <> Unmodelled ->
  exists evs,
    history (fst (run e n w)) = history w ++ evs
    /\ sent_file (fst (run e n w))
       = match saved evs with
         | [] => sent_file w
         | _ :: _ =>
             Some (default [] (sent_file w) ++ written_lines (saved evs))
         end
    /\ (forall (i : nat) (l : pystr),
          evs !! i = Some (EvSave l) ->
          exists j : nat, (j < i)%nat /\ evs !! j = Some (EvExtract l)).
Proof.
  intros _. destruct (run_records e n w) as (evs & Hrec). by exists evs.
Qed.

Lemma run_file_follows_saves_witness :
  exists evs,
    history
      (fst (run (sample_env [ascii_text "/economy/news1"]
                   (PageResponse 200 (Some [ascii_text "Text"])) (Some 200))
              2 first_start))
    = history first_start ++ evs
    /\ sent_file
         (fst (run (sample_env [ascii_text "/economy/news1"]
                      (PageResponse 200 (Some [ascii_text "Text"])) (Some 200))
                 2 first_start))
       = match saved evs with
         | [] => sent_file first_start
         | _ :: _ =>
             Some (default [] (sent_file first_start)
                   ++ written_lines (saved evs))
         end
    /\ (forall (i : nat) (l : pystr),
          evs !! i = Some (EvSave l) ->
          exists j : nat, (j < i)%nat /\ evs !! j = Some (EvExtract l)).
Proof.
  apply (run_file_follows_saves
           (sample_env [ascii_text "/economy/news1"]
              (PageResponse 200 (Some [ascii_text "Text"])) (Some 200))
           2 first_start).
  by vm_compute.
Defined.

(** ** The listing of the home page *)

Lemma comprehension_Ok_elem {A B} (f : A -> outcome B) (xs : list A)
      (ys : list B) (x : A) :
  comprehension f xs = Ok ys -> x ∈ xs -> exists y, f x = Ok y.
Proof.
  revert ys. induction xs as [|x0 xs IH]; intros ys Hys Hx.
  - by apply elem_of_nil in Hx.
  - cbn [comprehension] in Hys.
    destruct (f x0) as [y0| |] eqn:Hfx; try done. cbn [bind_outcome] in Hys.
    destruct (comprehension f xs) as [ys0| |]; try done.
    apply elem_of_cons in Hx as [->|Hx]; [by exists y0|].
    by apply (IH ys0).
Qed.

Lemma fetch_articles_drops_listing_on_error
      (status_code : Z) (anchors : list anchor) :
  raises_for_status status_code = true ->
  fetch_articles (HomeResponse status_code anchors) = [].
Proof. intros Hstatus. unfold fetch_articles. by rewrite Hstatus. Qed.

(** X6. The listing is all or nothing: an error status of the home page, or
    one selected anchor without [href], leaves no article at all. *)
Theorem fetch_articles_drops_whole_listing
        (status_code : Z) (anchors : list anchor) :
  raises_for_status status_code = true
  \/ (exists item, item ∈ anchors /\ a_href item = None) ->
  fetch_articles (HomeResponse status_code anchors) = [].
Proof.
  intros [Hstatus|(item & Hitem & Hhref)]; unfold fetch_articles.
  - by rewrite Hstatus.
  - destruct (raises_for_status status_code); [done|].
    destruct (comprehension article_of_anchor anchors) as [arts| |] eqn:Harts;
      [|done..].
    destruct (comprehension_Ok_elem _ _ _ _ Harts Hitem) as (art & Hart).
    unfold article_of_anchor in Hart. by rewrite Hhref in Hart.
Qed.

Lemma fetch_articles_drops_whole_listing_witness :
  fetch_articles
    (HomeResponse 200
       [ {| a_text := ascii_text "First"; a_href := Some (ascii_text "/a") |};
         {| a_text := ascii_text "Second"; a_href := None |} ])
  = [].
Proof.
  apply (fetch_articles_drops_whole_listing 200
           [ {| a_text := ascii_text "First"; a_href := Some (ascii_text "/a") |};
             {| a_text := ascii_text "Second"; a_href := None |} ]).
  right. exists {| a_text := ascii_text "Second"; a_href := None |}.
  split; [|reflexivity]. apply list_elem_of_further, list_elem_of_here.
Defined.

(** X7. Without error status and with an [href] on every selected anchor,
    the listing holds one article for each anchor, in order, with the
    stripped text of the anchor as title and its resolved [href] as link. *)
Theorem fetch_articles_lists_every_anchor
        (status_code : Z) (anchors : list anchor) :
  raises_for_status status_code = false ->
  (forall item, item ∈ anchors -> is_Some (a_href item)) ->
  fetch_articles (HomeResponse status_code anchors)
  = map (fun item =>
           {| title := strip (a_text item);
              link := resolve_link (default [] (a_href item)) |})
        anchors.
Proof.
  intros Hstatus Hhref. unfold fetch_articles. rewrite Hstatus.
  erewrite comprehension_Ok; [done|].
  intros item Hitem. unfold article_of_anchor.
  by destruct (Hhref item Hitem) as [href ->].
Qed.

Lemma fetch_articles_lists_every_anchor_witness :
  fetch_articles
    (HomeResponse 200
       [ {| a_text := ascii_text " First "; a_href := Some (ascii_text "/a") |};
         {| a_text := ascii_text "Second"; a_href := Some (ascii_text "http://b") |} ])
  = [ {| title := ascii_text "First"; link := ascii_text "https://www.rbc.ru/a" |};
      {| title := ascii_text "Second"; link := ascii_text "http://b" |} ].
Proof.
  apply (fetch_articles_lists_every_anchor 200
           [ {| a_text := ascii_text " First "; a_href := Some (ascii_text "/a") |};
             {| a_text := ascii_text "Second";
                a_href := Some (ascii_text "http://b") |} ]).
  - reflexivity.
  - intros item Hitem.
    apply elem_of_cons in Hitem as [->|Hitem]; [by eexists|].
    apply elem_of_cons in Hitem as [->|Hitem]; [by eexists|].
    by apply elem_of_nil in Hitem.
Defined.

Lemma resolve_link_absolute (href : pystr) :
  startswith (resolve_link href) HTTP = true.
Proof.
  unfold resolve_link. destruct (startswith href HTTP) eqn:Habs; [done|].
  reflexivity.
Qed.

Lemma fetch_articles_elem (r : home_response) (art : article) :
  art ∈ fetch_articles r ->
  exists item href,
    a_href item = Some href
    /\ art = {| title := strip (a_text item); link := resolve_link href |}.
Proof.
  destruct r as [|status_code anchors]; cbn [fetch_articles].
  { intros H. by apply elem_of_nil in H. }
  destruct (raises_for_status status_code).
  { intros H. by apply elem_of_nil in H. }
  destruct (comprehension article_of_anchor anchors) as [arts| |] eqn:Harts;
    try (intros H; by apply elem_of_nil in H).
  intros Hart. apply list_elem_of_lookup in Hart as [i Hi].
  destruct (comprehension_lookup _ _ _ _ _ Harts Hi) as (item & _ & Hof).
  unfold article_of_anchor in Hof.
  destruct (a_href item) as [href|] eqn:Hhref; [|done].
  apply Ok_inj in Hof. by exists item, href.
Qed.

(** X8. Every link that [fetch_articles] lists begins with [http], whatever
    the home page answers. *)
Theorem fetch_articles_links_begin_with_http (r : home_response) (art : article) :
  art ∈ fetch_articles r -> startswith (link art) HTTP = true.
Proof.
  intros Hart. apply fetch_articles_elem in Hart as (item & href & _ & ->).
  apply resolve_link_absolute.
Qed.

Lemma fetch_articles_links_begin_with_http_witness :
  startswith (ascii_text "https://www.rbc.ru/ftp://x") HTTP = true.
Proof.
  apply (fetch_articles_links_begin_with_http
           (HomeResponse 200
              [ {| a_text := []; a_href := Some (ascii_text "ftp://x") |} ])
           {| title := []; link := ascii_text "https://www.rbc.ru/ftp://x" |}).
  apply list_elem_of_here.
Defined.

(** ** Stripped titles *)

Lemma lstrip_head (s : pystr) :
  match lstrip s with
  | c :: _ => isspace c = false
  | [] => True
  end.
Proof.
  induction s as [|c s IH]; cbn [lstrip]; [done|].
  by destruct (isspace c) eqn:Hc.
Qed.

Lemma lstrip_idemp (s : pystr) : lstrip (lstrip s) = lstrip s.
Proof.
  pose proof (lstrip_head s) as Hhead.
  destruct (lstrip s) as [|c t]; [done|]. cbn [lstrip]. by rewrite Hhead.
Qed.

Lemma lstrip_split (s : pystr) : exists k, s = k ++ lstrip s.
Proof.
  induction s as [|c s [k Hk]]; [by exists []|]. cbn [lstrip].
  destruct (isspace c); [|by exists []].
  exists (c :: k). cbn [app]. by rewrite <- Hk.
Qed.

Lemma rstrip_split (s : pystr) : exists k, s = rstrip s ++ k.
Proof.
  destruct (lstrip_split (reverse s)) as [k Hk]. exists (reverse k).
  unfold rstrip. rewrite <- reverse_app, <- Hk. by rewrite reverse_involutive.
Qed.

Lemma rstrip_idemp (s : pystr) : rstrip (rstrip s) = rstrip s.
Proof. unfold rstrip. by rewrite reverse_involutive, lstrip_idemp. Qed.

Lemma strip_idemp (s : pystr) : strip (strip s) = strip s.
Proof.
  unfold strip.
  assert (lstrip (rstrip (lstrip s)) = rstrip (lstrip s)) as ->.
  { pose proof (lstrip_head s) as Hhead.
    destruct (rstrip_split (lstrip s)) as [k Hk].
    destruct (rstrip (lstrip s)) as [|c u]; [done|].
    rewrite Hk in Hhead. cbn in Hhead. cbn [lstrip]. by rewrite Hhead. }
  apply rstrip_idemp.
Qed.

(** X9. Every title that [fetch_articles] lists is stripped: stripping it
    again changes nothing, it has no space at either end. *)
Theorem fetch_articles_titles_stripped (r : home_response) (art : article) :
  art ∈ fetch_articles r -> strip (title art) = title art.
Proof.
  intros Hart. apply fetch_articles_elem in Hart as (item & href & _ & ->).
  apply strip_idemp.
Qed.

Lemma fetch_articles_titles_stripped_witness :
  strip (ascii_text "Big news") = ascii_text "Big news".
Proof.
  apply (fetch_articles_titles_stripped
           (HomeResponse 200
              [ {| a_text := [LF; 32%N] ++ ascii_text "Big news" ++ [32%N; LF];
                   a_href := Some (ascii_text "/a") |} ])
           {| title := ascii_text "Big news";
              link := ascii_text "https://www.rbc.ru/a" |}).
  apply list_elem_of_here.
Defined.

(** ** When the extractor returns the empty string *)

Lemma join_nil_inv (sep : pystr) (xs : list pystr) :
  (forall x, x ∈ xs -> x <> []) -> join sep xs = [] -> xs = [].
Proof.
  destruct xs as [|x xs]; [done|]. intros Hne Hjoin. exfalso.
  apply (Hne x); [apply list_elem_of_here|].
  cbn [join] in Hjoin. destruct xs; [done|].
  by apply app_eq_nil in Hjoin as [-> _].
Qed.

(** X10. The extractor returns the empty string, and the article is skipped,
    in two cases only: the request or the parser raised, or a container was
    found whose paragraphs and headings are all empty. A page without
    container never gives the empty string. *)
Theorem parse_article_content_empty_iff (r : page_response) :
  parse_article_content r = []
  <-> r = PageRaised
      \/ exists status_code blocks,
           r = PageResponse status_code (Some blocks)
           /\ Forall (fun b => b = []) blocks.
Proof.
  split.
  - destruct r as [|status_code [blocks|]]; cbn [parse_article_content].
    + by left.
    + intros Hjoin. right. exists status_code, blocks. split; [done|].
      apply join_nil_inv in Hjoin.
      * apply Forall_forall. intros b Hb. destruct b as [|c b]; [done|].
        assert (c :: b ∈ filter (fun s => nonempty s = true) blocks) as Hin
          by by apply list_elem_of_filter.
        rewrite Hjoin in Hin. by apply elem_of_nil in Hin.
      * intros x Hx. apply list_elem_of_filter in Hx as [Hx _]. by destruct x.
    + done.
  - intros [->|(status_code & blocks & -> & Hall)]; [done|].
    cbn [parse_article_content].
    replace (filter (fun s => nonempty s = true) blocks) with (@nil pystr);
      [done|].
    symmetry. induction Hall as [|b blocks -> _ IH]; [done|].
    by rewrite filter_cons_False.
Qed.

(** ** The attempts of the inner loop *)

(** X11. The inner loop never raises and leaves the file alone: it sends
    each message once, in order, whatever the API answers. The request for
    a message counts as successful exactly when the API, asked after the
    attempts for the messages before it, answers with status 200; a pause
    of one second follows each successful request and no other. *)
Theorem deliver_attempts_in_order (e : env) (msgs : list pystr) (w : world) :
  exists oks : list bool,
    length oks = length msgs
    /\ deliver e msgs w = (after w (concat (zip_with attempt msgs oks)), Ok tt)
    /\ (forall (i : nat) (msg : pystr) (ok : bool),
          msgs !! i = Some msg -> oks !! i = Some ok ->
          ok = delivered
                 (telegram e
                    (history w
                     ++ concat (zip_with attempt (take i msgs) (take i oks)))
                    msg)).
Proof.
  revert w. induction msgs as [|msg msgs IH]; intros w.
  - exists []. split; [done|]. split; [|done].
    unfold after. cbn. rewrite app_nil_r. by destruct w.
  - cbn [deliver].
    remember (delivered (telegram e (history w) msg)) as ok eqn:Hok.
    destruct (IH (after w (attempt msg ok))) as (oks & Hlen & Hrun & Hoks).
    exists (ok :: oks). split; [cbn; by rewrite Hlen|]. split.
    + erewrite bind_Ok by reflexivity. rewrite <- Hok.
      assert ((if ok then sleep e 1 else ret tt) (after w [EvSend msg ok])
              = (after w (attempt msg ok), Ok tt)) as Hpause.
      { unfold attempt. destruct ok; unfold sleep, record_event, ret, after; cbn.
        - by rewrite <- app_assoc.
        - done. }
      unfold after in *. cbn [sent_file history] in *.
      erewrite bind_Ok by exact Hpause. rewrite Hrun.
      cbn [zip_with concat]. by rewrite <- app_assoc.
    + intros [|i] m b Hm Hb; cbn in Hm, Hb.
      * injection Hm as <-. injection Hb as <-.
        cbn [take zip_with concat]. by rewrite app_nil_r.
      * cbn [take zip_with concat]. rewrite app_assoc.
        by apply (Hoks i m b).
Qed.

(** ** How the content is cut *)

Lemma slice_count_ceiling (n m : Z) :
  0 <= n -> 0 < m -> Z.of_nat (slice_count n m) = (n + m - 1) / m.
Proof.
  intros Hn Hm. unfold slice_count, range_length.
  destruct (Z.ltb_spec 0 m); [|lia].
  destruct (Z.ltb_spec 0 n).
  - assert (0 <= (n - 0 - 1) / m) by (apply Z.div_pos; lia).
    rewrite Z2Nat.id by lia.
    replace (n + m - 1) with (n - 0 - 1 + 1 * m) by lia.
    by rewrite Z.div_add by lia.
  - replace n with 0 by lia. cbn. symmetry. apply Z.div_small. lia.
Qed.

Lemma slices_lookup (m : Z) (content : pystr) (i : nat) (part : pystr) :
  slices m content !! i = Some part ->
  part = take (Z.to_nat m) (drop (i * Z.to_nat m) content)
  /\ (i < slice_count (len content) m)%nat.
Proof.
  unfold slices. intros Hi. apply list_lookup_fmap_Some in Hi as (k & -> & Hk).
  apply lookup_seq in Hk as [-> Hlt]. done.
Qed.

(** A slice reaches into the content; a slice that is not the last is full. *)
Lemma slices_lengths (m : Z) (content : pystr) (i : nat) (part : pystr) :
  0 < m -> slices m content !! i = Some part ->
  0 < len part
  /\ ((S i < length (slices m content))%nat -> len part = m).
Proof.
  intros Hm Hi. apply slices_lookup in Hi as [-> Hlt].
  assert (length (slices m content) = slice_count (len content) m) as Hcount
    by (unfold slices; by rewrite length_map, length_seq).
  rewrite Hcount.
  pose proof (slice_count_ceiling (len content) m (len_nonneg _) Hm) as Hceil.
  pose proof (Z.mul_div_le (len content + m - 1) m Hm) as Hle.
  unfold len in *. rewrite length_take, length_drop. split.
  - assert (Z.of_nat i * m < Z.of_nat (length content)) by nia. nia.
  - intros Hnext.
    assert ((Z.of_nat i + 2) * m <= Z.of_nat (length content) + m - 1) by nia.
    nia.
Qed.

(** X12. For a title and a link free of braces whose decoration is shorter
    than the limit, the number of messages is the length of the content
    divided by the capacity, rounded up; every message but the last has
    exactly the maximum length; and every message is the header, a
    non-empty slice of the content and the footer. *)
Theorem format_message_fills_messages (t content l : pystr) :
  brace_free t = true -> brace_free l = true ->
  0 < max_content_length t l ->
  exists msgs,
    format_message t content l = Ok msgs
    /\ Z.of_nat (length msgs)
       = (len content + max_content_length t l - 1) / max_content_length t l
    /\ (forall i msg,
          msgs !! i = Some msg -> (S i < length msgs)%nat ->
          len msg = MAX_MESSAGE_LENGTH)
    /\ (forall msg,
          msg ∈ msgs ->
          exists part,
            msg = header t ++ part ++ footer l /\ 0 < len part).
Proof.
  intros Ht Hl Hm. eexists. split; [by apply format_message_positive|].
  rewrite length_map. split; [|split].
  - unfold slices. rewrite length_map, length_seq.
    apply slice_count_ceiling; [apply len_nonneg|done].
  - intros i msg Hi Hnext.
    apply list_lookup_fmap_Some in Hi as (part & -> & Hpart).
    destruct (slices_lengths _ _ _ _ Hm Hpart) as [_ Hfull].
    specialize (Hfull Hnext).
    rewrite max_content_length_decoration in Hfull. unfold decoration in Hfull.
    rewrite !len_app in *. lia.
  - intros msg Hmsg. apply list_elem_of_fmap in Hmsg as (part & -> & Hpart).
    exists part. split; [done|].
    apply list_elem_of_lookup in Hpart as [i Hi].
    by destruct (slices_lengths _ _ _ _ Hm Hi).
Qed.

Lemma format_message_fills_messages_witness :
  exists msgs,
    format_message (ascii_text "Title") (repeat 120%N (Z.to_nat 10000))
                   sample_link
    = Ok msgs
    /\ Z.of_nat (length msgs)
       = (len (repeat 120%N (Z.to_nat 10000))
          + max_content_length (ascii_text "Title") sample_link - 1)
         / max_content_length (ascii_text "Title") sample_link
    /\ (forall i msg,
          msgs !! i = Some msg -> (S i < length msgs)%nat ->
          len msg = MAX_MESSAGE_LENGTH)
    /\ (forall msg,
          msg ∈ msgs ->
          exists part,
            msg = header (ascii_text "Title") ++ part ++ footer sample_link
            /\ 0 < len part).
Proof.
  apply (format_message_fills_messages (ascii_text "Title")
           (repeat 120%N (Z.to_nat 10000)) sample_link);
    reflexivity.
Defined.

(** X13. A non-empty content that fits the capacity gives exactly one
    message: the header, the whole content and the footer (title and link
    free of braces). *)
Theorem format_message_short_content (t content l : pystr) :
  brace_free t = true -> brace_free l = true ->
  0 < len content -> len content <= max_content_length t l ->
  format_message t content l = Ok [header t ++ content ++ footer l].
Proof.
  intros Ht Hl Hpos Hfit.
  rewrite format_message_positive by (done || lia).
  assert (slices (max_content_length t l) content = [content]) as ->; [|done].
  assert (slice_count (len content) (max_content_length t l) = 1%nat) as Hone.
  { unfold slice_count, range_length.
    destruct (Z.ltb_spec 0 (max_content_length t l)); [|lia].
    destruct (Z.ltb_spec 0 (len content)); [|lia].
    by rewrite (Z.div_small (len content - 0 - 1)) by lia. }
  unfold slices. rewrite Hone. cbn [seq map Nat.mul drop].
  rewrite take_ge; [done|]. rewrite drop_0. unfold len in *. lia.
Qed.

Lemma format_message_short_content_witness :
  format_message (ascii_text "Title") (ascii_text "Text") sample_link
  = Ok [header (ascii_text "Title") ++ ascii_text "Text" ++ footer sample_link].
Proof.
  apply (format_message_short_content (ascii_text "Title") (ascii_text "Text")
           sample_link); [reflexivity..|by vm_compute].
Defined.

(** ** Messages sent by the loop body *)

(** X14. For an article whose title and link have no brace, the loop body
    never sends a message longer than the limit to Telegram. *)
Theorem process_article_sends_within_limit (e : env) (a : article) (w : world) :
  brace_free (title a) = true -> brace_free (link a) = true ->
  exists evs,
    history (fst (process_article e a w)) = history w ++ evs
    /\ forall text, text ∈ sent evs -> len text <= MAX_MESSAGE_LENGTH.
Proof.
  intros Ht Hl.
  destruct (process_article_cases e a w)
    as [(r & -> & _)|(evs & msgs & -> & _ & Hfmt & Hsent & _ & _)]; cbn [fst].
  - eexists. split; [done|]. intros text Htext. by apply elem_of_nil in Htext.
  - eexists. split; [done|]. intros text Htext.
    rewrite !sent_app, Hsent in Htext. cbn in Htext. rewrite app_nil_r in Htext.
    by apply (format_message_within_limit _ _ _ _ Ht Hl Hfmt).
Qed.

Lemma process_article_sends_within_limit_witness :
  exists evs,
    history
      (fst (process_article
              (sample_env [] (PageResponse 200 (Some [ascii_text "Text"]))
                 (Some 200))
              sample_article first_start))
    = history first_start ++ evs
    /\ forall text, text ∈ sent evs -> len text <= MAX_MESSAGE_LENGTH.
Proof.
  exact (process_article_sends_within_limit
           (sample_env [] (PageResponse 200 (Some [ascii_text "Text"])) (Some 200))
           sample_article first_start eq_refl eq_refl).
Defined.

(** ** A closing brace in the title *)

Lemma scan_format_stray_close (pre rest arg : pystr) :
  brace_free pre = true -> head rest <> Some RBRACE ->
  scan_format InText (pre ++ RBRACE :: rest) arg = Raise.
Proof.
  intros Hpre Hrest. rewrite scan_format_text by done.
  destruct rest as [|d rest]; [done|]. cbn [scan_format].
  change (RBRACE =? LBRACE)%N with false. change (RBRACE =? RBRACE)%N with true.
  cbv iota. destruct (N.eqb_spec d RBRACE) as [->|Hd]; [done|]. done.
Qed.

Lemma slices_nonempty (m : Z) (content : pystr) :
  0 < m -> content <> [] -> slices m content <> [].
Proof.
  intros Hm Hc Hs. apply Hc. by rewrite <- (concat_slices m content Hm), Hs.
Qed.

(** X15. A title with a closing brace that is not doubled makes
    [format_message] raise for every non-empty content, when the capacity is
    positive: [str.format] rejects the template. *)
Theorem format_message_stray_closing_brace (pre post content l : pystr) :
  brace_free pre = true -> head post <> Some RBRACE ->
  content <> [] ->
  0 < max_content_length (pre ++ [RBRACE] ++ post) l ->
  format_message (pre ++ [RBRACE] ++ post) content l = Raise.
Proof.
  intros Hpre Hpost Hc Hm. unfold format_message.
  rewrite py_range_positive_step by done. cbn [bind_outcome].
  rewrite parts_slices by done.
  destruct (slices _ content) as [|part parts] eqn:Hs.
  { by apply slices_nonempty in Hs. }
  cbn [comprehension].
  assert (str_format (message_template (pre ++ [RBRACE] ++ post) l) part
          = Raise) as ->; [|done].
  unfold str_format, message_template, header.
  replace ((ascii_text "<b>" ++ [128240%N] ++ ascii_text " "
            ++ (pre ++ [RBRACE] ++ post) ++ ascii_text "</b>" ++ [LF; LF])
           ++ PLACEHOLDER ++ footer l)
    with ((ascii_text "<b>" ++ [128240%N] ++ ascii_text " " ++ pre)
          ++ RBRACE
             :: (post ++ ascii_text "</b>" ++ [LF; LF] ++ PLACEHOLDER ++ footer l))
    by (rewrite <- !app_assoc; reflexivity).
  apply scan_format_stray_close.
  - rewrite !brace_free_app, Hpre. reflexivity.
  - destruct post as [|d post]; [discriminate|exact Hpost].
Qed.

Lemma format_message_stray_closing_brace_witness :
  format_message (ascii_text "a" ++ [RBRACE] ++ ascii_text "b")
                 (ascii_text "Text") sample_link
  = Raise.
Proof.
  apply (format_message_stray_closing_brace (ascii_text "a") (ascii_text "b")
           (ascii_text "Text") sample_link);
    [reflexivity|discriminate|discriminate|reflexivity].
Defined.

(** X16. When [format_message] raises for an article with content, the
    exception leaves the loop over the articles: the link is not saved, the
    file is untouched and the articles that follow are not processed. *)
Theorem format_error_ends_the_loop
        (e : env) (a : article) (others : list article) (w : world) :
  nonempty (parse_article_content (article_page e (history w) (link a))) = true ->
  format_message (title a)
    (parse_article_content (article_page e (history w) (link a))) (link a)
  = Raise ->
  for_each (process_article e) (a :: others) w
  = ({| sent_file := sent_file w;
        history := history w ++ [EvExtract (link a)] |}, Raise).
Proof.
  intros Hc Hfmt. rewrite for_each_cons.
  by rewrite (process_article_raise e a w Hc Hfmt).
Qed.

Lemma format_error_ends_the_loop_witness :
  for_each
    (process_article
       (sample_env [] (PageResponse 200 (Some [ascii_text "Text"])) (Some 200)))
    [ {| title := ascii_text "a}b"; link := sample_link |}; sample_article ]
    first_start
  = ({| sent_file := None; history := [EvExtract sample_link] |}, Raise).
Proof.
  exact (format_error_ends_the_loop
           (sample_env [] (PageResponse 200 (Some [ascii_text "Text"])) (Some 200))
           {| title := ascii_text "a}b"; link := sample_link |}
           [sample_article] first_start eq_refl eq_refl).
Defined.

(** ** A cycle without listing *)

(** X17. When the file of sent links can be read (or is missing) and the
    home page request raises or answers with an error status, the cycle
    processes no article and leaves the file alone: it only waits for the
    check interval, provided [time.sleep] accepts it (it is not negative,
    not above [SLEEP_MAX], and the operating system does not refuse it). *)
Theorem failed_home_page_idle_cycle (e : env) (w : world) :
  read_error e (history w) = false ->
  home_page e (history w) = HomeRaised
  \/ (exists status_code anchors,
        home_page e (history w) = HomeResponse status_code anchors
        /\ raises_for_status status_code = true) ->
  0 <= CHECK_INTERVAL e <= SLEEP_MAX ->
  os_refuses e (history w ++ [EvFetch]) (CHECK_INTERVAL e) = false ->
  cycle e w
  = ({| sent_file := sent_file w;
        history := history w ++ [EvFetch; EvSleep (CHECK_INTERVAL e)] |}, Ok tt).
Proof.
  intros Hread Hhome [Hlo Hhi] Hos.
  assert (fetch_articles (home_page e (history w)) = []) as Hlist.
  { destruct Hhome as [->|(status_code & anchors & -> & Hstatus)]; [done|].
    apply fetch_articles_drops_listing_on_error. done. }
  rewrite cycle_unfold, Hread, Hlist.
  change (new_articles _ []) with (@nil article).
  cbn [for_each]. unfold ret. rewrite sleep_run.
  rewrite sleep_accepted by done.
  unfold after. cbn. by rewrite <- app_assoc.
Qed.

Lemma failed_home_page_idle_cycle_witness :
  cycle {| home_page := fun _ => HomeResponse 503 [];
           article_page := fun _ _ => PageRaised;
           telegram := fun _ _ => None;
           CHECK_INTERVAL := 900;
           os_refuses := fun _ _ => false;
           read_error := fun _ => false |}
        first_start
  = ({| sent_file := None; history := [EvFetch; EvSleep 900] |}, Ok tt).
Proof.
  apply (failed_home_page_idle_cycle
           {| home_page := fun _ => HomeResponse 503 [];
              article_page := fun _ _ => PageRaised;
              telegram := fun _ _ => None;
              CHECK_INTERVAL := 900;
              os_refuses := fun _ _ => false;
              read_error := fun _ => false |}
           first_start).
  - reflexivity.
  - right. by exists 503, [].
  - by vm_compute.
  - reflexivity.
Defined.

(** X18. When the file of sent links can be read (or is missing) and every
    listed link is already in the set loaded at the start of the cycle, the
    cycle requests no article page, sends nothing and leaves the file alone:
    it fetches the home page and waits, provided [time.sleep] accepts the
    check interval (it is not negative, not above [SLEEP_MAX], and the
    operating system does not refuse it). *)
Theorem nothing_new_idle_cycle (e : env) (w : world) :
  read_error e (history w) = false ->
  (forall art,
     art ∈ fetch_articles (home_page e (history w)) ->
     link art ∈ load_sent_articles (sent_file w)) ->
  0 <= CHECK_INTERVAL e <= SLEEP_MAX ->
  os_refuses e (history w ++ [EvFetch]) (CHECK_INTERVAL e) = false ->
  cycle e w
  = ({| sent_file := sent_file w;
        history := history w ++ [EvFetch; EvSleep (CHECK_INTERVAL e)] |}, Ok tt).
Proof.
  intros Hread Hsent [Hlo Hhi] Hos. rewrite cycle_unfold, Hread.
  assert (new_articles (load_sent_articles (sent_file w))
            (fetch_articles (home_page e (history w))) = []) as ->.
  { unfold new_articles.
    induction (fetch_articles (home_page e (history w))) as [|a arts IH];
      [done|].
    rewrite filter_cons_False.
    - apply IH. intros art Hart. by apply Hsent, list_elem_of_further.
    - intros Hnot. apply Hnot, Hsent, list_elem_of_here. }
  cbn [for_each]. unfold ret. rewrite sleep_run.
  rewrite sleep_accepted by done.
  unfold after. cbn. by rewrite <- app_assoc.
Qed.

Lemma nothing_new_idle_cycle_witness :
  cycle (sample_env [ascii_text "/economy/news1"]
           (PageResponse 200 (Some [ascii_text "Text"])) (Some 200))
        {| sent_file := Some (sample_link ++ [LF]); history := [] |}
  = ({| sent_file := Some (sample_link ++ [LF]);
        history := [EvFetch; EvSleep 900] |}, Ok tt).
Proof.
  apply (nothing_new_idle_cycle
           (sample_env [ascii_text "/economy/news1"]
              (PageResponse 200 (Some [ascii_text "Text"])) (Some 200))
           {| sent_file := Some (sample_link ++ [LF]); history := [] |}).
  - reflexivity.
  - intros art Hart. apply list_elem_of_singleton in Hart. subst art.
    apply (bool_decide_unpack _). by vm_compute.
  - by vm_compute.
  - reflexivity.
Defined.

(** ** Article pages that cannot be read *)

Lemma for_each_all_skipped (e : env) (arts : list article) (w : world) :
  (forall h u, parse_article_content (article_page e h u) = []) ->
  for_each (process_article e) arts w
  = (after w (map (fun a => EvExtract (link a)) arts), Ok tt).
Proof.
  intros Hempty. revert w. induction arts as [|a arts IH]; intros w.
  - unfold after. cbn. rewrite app_nil_r. by destruct w.
  - rewrite for_each_cons, process_article_empty by apply Hempty.
    rewrite IH. unfold after. cbn. by rewrite <- app_assoc.
Qed.

(** X19. When the file of sent links can be read (or is missing) and no
    article page gives any content (every request raises, or every page is
    empty), the cycle requests each new article once, in listing order,
    sends nothing and saves nothing: the file is left as it was, so the same
    articles are new again in the next cycle.  The cycle ends with the wait
    for the check interval, provided [time.sleep] accepts it (it is not
    negative, not above [SLEEP_MAX], and the operating system does not
    refuse it). *)
Theorem unreadable_pages_cycle (e : env) (w : world) :
  read_error e (history w) = false ->
  (forall h u, parse_article_content (article_page e h u) = []) ->
  0 <= CHECK_INTERVAL e <= SLEEP_MAX ->
  (forall h, os_refuses e h (CHECK_INTERVAL e) = false) ->
  cycle e w
  = ({| sent_file := sent_file w;
        history :=
          history w ++ [EvFetch]
          ++ map (fun a => EvExtract (link a))
               (new_articles (load_sent_articles (sent_file w))
                  (fetch_articles (home_page e (history w))))
          ++ [EvSleep (CHECK_INTERVAL e)] |}, Ok tt).
Proof.
  intros Hread Hempty [Hlo Hhi] Hos. rewrite cycle_unfold, Hread.
  rewrite for_each_all_skipped by done. rewrite sleep_run.
  rewrite sleep_accepted by done.
  unfold after. cbn. by rewrite <- !app_assoc.
Qed.

Lemma unreadable_pages_cycle_witness :
  cycle (sample_env [ascii_text "/a"; ascii_text "/b"] PageRaised (Some 200))
        first_start
  = ({| sent_file := None;
        history := [EvFetch; EvExtract (ascii_text "https://www.rbc.ru/a");
                    EvExtract (ascii_text "https://www.rbc.ru/b");
                    EvSleep 900] |}, Ok tt).
Proof.
  apply (unreadable_pages_cycle
           (sample_env [ascii_text "/a"; ascii_text "/b"] PageRaised (Some 200))
           first_start).
  - reflexivity.
  - reflexivity.
  - by vm_compute.
  - reflexivity.
Defined.
